(** * go-transcode: segmented transcoding (hlsvod) and process-group
    termination (cmdgroup)

    A shallow embedding of [hlsvod/transcode.go] and of the two platform
    variants of [internal/utils/cmdgroup], with the properties the
    specification states about them.

    Conventions.  A Go [int] is a [Z]; a Go [string] is a [string]; a Go
    [float64] is an IEEE-754 binary64 value, [spec_float]; a Go [error] is a
    value of the inductive type [error], the nil error being [None]; a
    pointer that may be nil is an [option].  A field whose name is also the
    name of a type carries a trailing underscore ([VideoProfile_],
    [AudioProfile_], [Process_]); the two [Bitrate] fields are [VBitrate]
    and [ABitrate].  Calls that leave the program
    (running a process, opening a pipe, logging) are recorded, in program
    order, in a trace of events; what the outside world answers is read from
    an environment record. *)

From Stdlib Require Import ZArith List String Ascii Bool Lia.
From Stdlib Require Import Floats.SpecFloat.
Import ListNotations.

Local Open Scope Z_scope.
Local Open Scope list_scope.

(* ================================================================== *)
(** * The Go library functions the code calls *)
(* ================================================================== *)

Module Go.

(** ** Errors *)

Inductive error : Type :=
| errorString (msg : string)              (* errors.New, fmt.Errorf without %w *)
| wrapError (msg : string) (err : error)  (* fmt.Errorf with %w *)
| Errno (n : Z)                           (* syscall.Errno *)
| ErrProcessDone                          (* os.ErrProcessDone *)
| ExitError (status : Z).                 (* *exec.ExitError *)

Definition ESRCH : Z := 3.

(** ** Numbers to text *)

Definition digit (d : Z) : ascii := ascii_of_nat (48 + Z.to_nat d).

Arguments digit : simpl never.

Fixpoint utoa_aux (fuel : nat) (n : Z) (acc : string) : string :=
  match fuel with
  | O => acc
  | S fuel' =>
      let acc' := String (digit (n mod 10)) acc in
      if n / 10 =? 0 then acc' else utoa_aux fuel' (n / 10) acc'
  end.

(** Decimal digits of a natural number, no leading zero (["0"] for zero). *)
Definition utoa (n : Z) : string :=
  utoa_aux (S (Z.to_nat (Z.log2 n))) n EmptyString.

(** [fmt.Sprintf("%d", n)]. *)
Definition itoa (n : Z) : string :=
  if n <? 0 then String "-"%char (utoa (- n)) else utoa n.

(** The number a string of digits denotes, continuing from [acc]. *)
Fixpoint digits_value (s : string) (acc : Z) : Z :=
  match s with
  | EmptyString => acc
  | String c rest =>
      digits_value rest (10 * acc + (Z.of_nat (nat_of_ascii c) - 48))
  end.

(** ** float64 *)

Definition float64 : Type := spec_float.

(** The binary64 value nearest to [m * 2^e]. *)
Definition f64 (m e : Z) : float64 := binary_normalize 53 1024 m e false.

Definition f64_zero : float64 := S754_zero false.

(** Go's [x > 0] on float64: false on NaN, on both zeros and on negatives. *)
Definition gt_zero (x : float64) : bool := SFltb f64_zero x.

(** [m * 2^e * 10^6], rounded to the nearest integer, ties to even. *)
Definition scaled6 (m : positive) (e : Z) : Z :=
  if 0 <=? e then Z.pos m * 2 ^ e * 1000000
  else
    let den := 2 ^ (- e) in
    let num := Z.pos m * 1000000 in
    let q := num / den in
    let r := num mod den in
    match 2 * r ?= den with
    | Lt => q
    | Gt => q + 1
    | Eq => if Z.even q then q else q + 1
    end.

(** The six digits after the decimal point. *)
Definition frac6 (r : Z) : string :=
  String (digit (r / 100000 mod 10))
 (String (digit (r / 10000 mod 10))
 (String (digit (r / 1000 mod 10))
 (String (digit (r / 100 mod 10))
 (String (digit (r / 10 mod 10))
 (String (digit (r mod 10)) EmptyString))))).

Definition sign_text (s : bool) : string := if s then "-"%string else ""%string.

(** [fmt.Sprintf("%.6f", x)]: the exact value of [x] rounded to six
    decimals, ties to even; a sign only when negative (also on negative
    zero); the special values print as [NaN], [+Inf], [-Inf]. *)
Definition Sprintf_f6 (x : float64) : string :=
  match x with
  | S754_nan => "NaN"%string
  | S754_infinity s => if s then "-Inf"%string else "+Inf"%string
  | S754_zero s => (sign_text s ++ "0.000000")%string
  | S754_finite s m e =>
      let n := scaled6 m e in
      (sign_text s ++ utoa (n / 1000000) ++ "." ++ frac6 (n mod 1000000))%string
  end.

(** ** strings *)

(** [strings.Join(elems, sep)]. *)
Definition strings_Join (elems : list string) (sep : string) : string :=
  String.concat sep elems.

(** [strip old s] is what follows [old] when [s] starts with [old]. *)
Fixpoint strip (old s : string) : option string :=
  match old with
  | EmptyString => Some s
  | String a old' =>
      match s with
      | EmptyString => None
      | String b s' => if Ascii.eqb a b then strip old' s' else None
      end
  end.

(** [strings.Replace(s, old, new, 1)] for a non-empty [old]: the leftmost
    occurrence of [old] is replaced, a string without one is returned as
    it is. *)
Fixpoint strings_Replace1 (s old new : string) : string :=
  match strip old s with
  | Some rest => (new ++ rest)%string
  | None =>
      match s with
      | EmptyString => EmptyString
      | String c s' => String c (strings_Replace1 s' old new)
      end
  end.

(** ** path *)

(** The elements of a path between its slashes. *)
Fixpoint components (s : string) : list string :=
  match s with
  | EmptyString => [EmptyString]
  | String c rest =>
      if Ascii.eqb c "/"%char then EmptyString :: components rest
      else match components rest with
           | hd :: tl => String c hd :: tl
           | [] => [String c EmptyString]
           end
  end.

(** One element of [path.Clean]'s loop; [out] is the output so far, last
    element first. *)
Definition clean_step (rooted : bool) (out : list string) (c : string)
  : list string :=
  if String.eqb c "" then out
  else if String.eqb c "." then out
  else if String.eqb c ".." then
    match out with
    | top :: below =>
        if String.eqb top ".." then c :: out else below
    | [] => if rooted then [] else [c]
    end
  else c :: out.

(** [path.Clean]. *)
Definition path_Clean (p : string) : string :=
  match p with
  | EmptyString => "."%string
  | String c0 _ =>
      let rooted := Ascii.eqb c0 "/"%char in
      let out := fold_left (clean_step rooted) (components p) [] in
      let body := String.concat "/" (rev out) in
      if rooted then String "/"%char body
      else if String.eqb body "" then "."%string else body
  end.

(** [path.Join(a, b)]. *)
Definition path_Join (a b : string) : string :=
  if String.eqb a "" then
    (if String.eqb b "" then ""%string else path_Clean b)
  else path_Clean (a ++ "/" ++ b)%string.

End Go.

(* ================================================================== *)
(** * hlsvod/transcode.go *)
(* ================================================================== *)

Module hlsvod.
Import Go.

(** ** Data model *)

Record VideoProfile : Type := {
  Width : Z;
  Height : Z;
  VBitrate : Z   (* VideoProfile.Bitrate, in kilobytes *)
}.

Record AudioProfile : Type := {
  ABitrate : Z   (* AudioProfile.Bitrate, in kilobytes *)
}.

Record TranscodeConfig : Type := {
  InputFilePath : string;
  OutputDirPath : string;
  SegmentPrefix : string;
  SegmentOffset : Z;
  SegmentTimes : list float64;
  VideoProfile_ : option VideoProfile;   (* a nil pointer is [None] *)
  AudioProfile_ : option AudioProfile
}.

Record VideoInfo : Type := { PixelFormat : string }.

Record FFProbeOutput : Type := { Streams : list VideoInfo }.

(** A [chan string], known by the capacity it was made with. *)
Record chan : Type := { capacity : nat }.

(** ** The world outside *)

(** The three tasks [TranscodeSegments] starts with [go]. *)
Inductive Goroutine : Type := StdoutReader | StderrReader | ExitWaiter.

Inductive Event : Type :=
| EvLog (line : string)                          (* log.Printf, log.Println *)
| EvOutput (bin : string) (args : list string)   (* cmd.Output() of the probe *)
| EvCommand (bin : string) (args : list string)  (* exec.CommandContext of the encoder *)
| EvStdoutPipe                                   (* cmd.StdoutPipe() *)
| EvStderrPipe                                   (* cmd.StderrPipe() *)
| EvMakeChan (c : chan)                          (* make(chan string, 1) *)
| EvGo (g : Goroutine)                           (* a go statement *)
| EvStart.                                       (* cmd.Start() *)

(** What the world answers.  [cmd_Output bin args] is the standard output
    of running [bin] on [args] to its end, or the error of [cmd.Output];
    [json_Unmarshal] is [encoding/json]'s decoder at type [FFProbeOutput];
    the last three are the errors of [cmd.StdoutPipe], [cmd.StderrPipe]
    and [cmd.Start] on the encoder command, [None] for nil. *)
Record Env : Type := {
  cmd_Output : string -> list string -> string * option error;
  json_Unmarshal : string -> FFProbeOutput * option error;
  cmd_StdoutPipe : option error;
  cmd_StderrPipe : option error;
  cmd_Start : string -> list string -> option error
}.

(** Computations that append to the trace of events. *)
Definition M (A : Type) : Type := list Event -> A * list Event.

Definition ret {A : Type} (a : A) : M A := fun tr => (a, tr).

Definition bind {A B : Type} (m : M A) (k : A -> M B) : M B :=
  fun tr => let (a, tr') := m tr in k a tr'.

Definition emit (e : Event) : M unit := fun tr => (tt, tr ++ [e]).

Definition run {A : Type} (m : M A) : A * list Event := m [].

Notation "x <- m ;; k" := (bind m (fun x => k))
  (at level 61, m at next level, right associativity).
Notation "m ;;; k" := (bind m (fun _ => k))
  (at level 61, right associativity).

(** [err.Error()]. *)
Definition Error (e : error) : string :=
  match e with
  | errorString msg => msg
  | wrapError msg _ => msg
  | Errno n => ("errno " ++ itoa n)%string
  | ErrProcessDone => "os: process already finished"%string
  | ExitError status => ("exit status " ++ itoa status)%string
  end.

(** [fmt.Errorf(prefix + "%w", err)]. *)
Definition Errorf_w (prefix : string) (err : error) : error :=
  wrapError (prefix ++ Error err)%string err.

(** ** detectVideoFormat *)

Definition probe_args (inputPath : string) : list string :=
  ["-v"; "quiet";
   "-print_format"; "json";
   "-show_streams";
   "-select_streams"; "v:0";
   inputPath]%string.

Definition detectVideoFormat (env : Env) (ffprobeBinary inputPath : string)
  : M (string * option error) :=
  let args := probe_args inputPath in
  emit (EvOutput ffprobeBinary args) ;;;
  let (output, err) := cmd_Output env ffprobeBinary args in
  match err with
  | Some err => ret (""%string, Some (Errorf_w "failed to run ffprobe: " err))
  | None =>
      let (probeOutput, err) := json_Unmarshal env output in
      match err with
      | Some err =>
          ret (""%string, Some (Errorf_w "failed to parse ffprobe output: " err))
      | None =>
          match Streams probeOutput with
          | [] => ret (""%string, Some (errorString "no video streams found"))
          | first :: _ => ret (PixelFormat first, None)
          end
      end
  end.

(** ** is422Format *)

Definition format422 : list string :=
  [ (* Standard planar 4:2:2 formats *)
    "yuv422p"; "yuv422p10le"; "yuv422p12le"; "yuv422p16le"; "yuv422p9le";
    "yuv422p10be"; "yuv422p12be"; "yuv422p16be"; "yuv422p9be";
    "yuv422p14le"; "yuv422p14be";
    (* Packed 4:2:2 formats *)
    "yuyv422"; "uyvy422";
    (* JPEG-range 4:2:2 format *)
    "yuvj422p";
    (* 4:2:2 with alpha channel *)
    "yuva422p"; "yuva422p9le"; "yuva422p9be"; "yuva422p10le"; "yuva422p10be";
    "yuva422p12le"; "yuva422p12be"; "yuva422p16le"; "yuva422p16be";
    (* Professional/broadcast 4:2:2 formats *)
    "v210"; "v216";
    (* Semi-planar 4:2:2 formats *)
    "p210le"; "p210be"; "p216le"; "p216be" ]%string.

(** The loop [for _, fmt := range format422] with its early [return true]. *)
Fixpoint range_422 (pixelFormat : string) (formats : list string) : bool :=
  match formats with
  | [] => false
  | fmt :: rest =>
      if String.eqb pixelFormat fmt then true else range_422 pixelFormat rest
  end.

Definition is422Format (pixelFormat : string) : bool :=
  range_422 pixelFormat format422.

(** ** TranscodeSegments *)

(** The scale filter of the video specs. *)
Definition scale_filter (profile : VideoProfile) : string :=
  if Width profile >=? Height profile
  then ("scale=-2:" ++ itoa (Height profile))%string
  else ("scale=" ++ itoa (Width profile) ++ ":-2")%string.

(** Lines 164-180: probing, when there is a video profile. *)
Definition detect_profile (env : Env) (ffmpegBinary : string)
  (config : TranscodeConfig) : M bool :=
  match VideoProfile_ config with
  | None => ret false
  | Some _ =>
      let ffprobeBinary := strings_Replace1 ffmpegBinary "ffmpeg" "ffprobe" in
      r <- detectVideoFormat env ffprobeBinary (InputFilePath config) ;;
      let (pixelFormat, err) := (r : string * option error) in
      match err with
      | Some err =>
          emit (EvLog ("Warning: Could not detect video format, using default profile: "
                       ++ Error err)%string) ;;;
          ret false
      | None =>
          emit (EvLog ("Detected pixel format: " ++ pixelFormat)%string) ;;;
          let useHigh422Profile := is422Format pixelFormat in
          (if useHigh422Profile
           then emit (EvLog ("Detected 4:2:2 format (" ++ pixelFormat
                             ++ "), using high422 profile")%string)
           else emit (EvLog ("Using default profile for format: "
                             ++ pixelFormat)%string)) ;;;
          ret useHigh422Profile
      end
  end.

Definition segments : chan := {| capacity := 1 |}.

Definition TranscodeSegments (env : Env) (ffmpegBinary : string)
  (config : TranscodeConfig) : M (option chan * option error) :=
  let totalSegments := Z.of_nat (List.length (SegmentTimes config)) in
  if totalSegments <? 2 then
    ret (None, Some (errorString "minimum 2 segment times needed"))
  else
    (* set time boundary *)
    let startAt :=
      if 0 <? totalSegments then nth 0 (SegmentTimes config) f64_zero
      else f64_zero in
    let endAt :=
      if 0 <? totalSegments
      then nth (Z.to_nat (totalSegments - 1)) (SegmentTimes config) f64_zero
      else f64_zero in
    (* convert to comma separated segment times *)
    let fmtSegTimes := map Sprintf_f6 (SegmentTimes config) in
    let commaSeparatedSegTimes := strings_Join (tl fmtSegTimes) "," in
    let args := ["-loglevel"; "warning"]%string in
    (* seek to start point *)
    let args :=
      if gt_zero startAt then args ++ ["-ss"%string; Sprintf_f6 startAt]
      else args in
    (* input specs *)
    let args := args ++
      ["-i"%string; InputFilePath config;
       "-to"%string; Sprintf_f6 endAt;
       "-copyts"%string;
       "-force_key_frames"%string; commaSeparatedSegTimes;
       "-sn"%string] in
    (* detect video format to determine appropriate profile *)
    useHigh422Profile <- detect_profile env ffmpegBinary config ;;
    (* video specs *)
    let args :=
      match VideoProfile_ config with
      | Some profile =>
          let scale := scale_filter profile in
          let videoProfile :=
            if useHigh422Profile : bool then "high422"%string else "high"%string in
          args ++
          ["-vf"%string; scale;
           "-c:v"%string; "libx264"%string;
           "-preset"%string; "faster"%string;
           "-profile:v"%string; videoProfile;
           "-level:v"%string; "4.0"%string;
           "-b:v"%string; (itoa (VBitrate profile) ++ "k")%string]
      | None => args
      end in
    (* audio specs *)
    let args :=
      match AudioProfile_ config with
      | Some profile =>
          args ++
          ["-c:a"%string; "aac"%string;
           "-b:a"%string; (itoa (ABitrate profile) ++ "k")%string]
      | None => args
      end in
    (* segmenting specs *)
    let args := args ++
      ["-f"%string; "segment"%string;
       "-segment_time_delta"%string; "0.2"%string;
       "-segment_format"%string; "mpegts"%string;
       "-segment_times"%string; commaSeparatedSegTimes;
       "-segment_start_number"%string; itoa (SegmentOffset config);
       "-segment_list_type"%string; "flat"%string;
       "-segment_list"%string; "pipe:1"%string;
       path_Join (OutputDirPath config)
                 (SegmentPrefix config ++ "-%05d.ts")%string] in
    emit (EvCommand ffmpegBinary args) ;;;
    emit (EvLog ("Starting FFmpeg process with args" ++ " "
                 ++ strings_Join (ffmpegBinary :: args) " ")%string) ;;;
    emit EvStdoutPipe ;;;
    match cmd_StdoutPipe env with
    | Some err => ret (None, Some err)
    | None =>
        emit EvStderrPipe ;;;
        match cmd_StderrPipe env with
        | Some err => ret (None, Some err)
        | None =>
            emit (EvMakeChan segments) ;;;
            emit (EvGo StdoutReader) ;;;   (* handle stdout *)
            emit (EvGo StderrReader) ;;;   (* handle stderr *)
            emit EvStart ;;;               (* start execution *)
            let err := cmd_Start env ffmpegBinary args in
            emit (EvGo ExitWaiter) ;;;     (* wait until execution finishes *)
            ret (Some segments, err)
        end
    end.

(** The argument vector of lines 142-228, as a function of the
    configuration and of [useHigh422Profile]. *)
Definition args_for (config : TranscodeConfig) (useHigh422Profile : bool)
  : list string :=
  let startAt := nth 0 (SegmentTimes config) f64_zero in
  let endAt :=
    nth (List.length (SegmentTimes config) - 1) (SegmentTimes config) f64_zero in
  let commaSeparatedSegTimes :=
    strings_Join (tl (map Sprintf_f6 (SegmentTimes config))) "," in
  (["-loglevel"; "warning"]%string
   ++ (if gt_zero startAt then ["-ss"%string; Sprintf_f6 startAt] else []))
  ++ ["-i"%string; InputFilePath config;
      "-to"%string; Sprintf_f6 endAt;
      "-copyts"%string;
      "-force_key_frames"%string; commaSeparatedSegTimes;
      "-sn"%string]
  ++ match VideoProfile_ config with
     | Some profile =>
         ["-vf"%string; scale_filter profile;
          "-c:v"%string; "libx264"%string;
          "-preset"%string; "faster"%string;
          "-profile:v"%string;
          if useHigh422Profile then "high422"%string else "high"%string;
          "-level:v"%string; "4.0"%string;
          "-b:v"%string; (itoa (VBitrate profile) ++ "k")%string]
     | None => []
     end
  ++ match AudioProfile_ config with
     | Some profile =>
         ["-c:a"%string; "aac"%string;
          "-b:a"%string; (itoa (ABitrate profile) ++ "k")%string]
     | None => []
     end
  ++ ["-f"%string; "segment"%string;
      "-segment_time_delta"%string; "0.2"%string;
      "-segment_format"%string; "mpegts"%string;
      "-segment_times"%string; commaSeparatedSegTimes;
      "-segment_start_number"%string; itoa (SegmentOffset config);
      "-segment_list_type"%string; "flat"%string;
      "-segment_list"%string; "pipe:1"%string;
      path_Join (OutputDirPath config)
                (SegmentPrefix config ++ "-%05d.ts")%string].

(** ** Reading a trace *)

(** The argument vector handed to [exec.CommandContext], if the call got
    that far. *)
Fixpoint built_args (tr : list Event) : option (list string) :=
  match tr with
  | [] => None
  | EvCommand _ args :: _ => Some args
  | _ :: rest => built_args rest
  end.

(** The binaries run for probing, in order. *)
Fixpoint probed (tr : list Event) : list string :=
  match tr with
  | [] => []
  | EvOutput bin _ :: rest => bin :: probed rest
  | _ :: rest => probed rest
  end.

Definition is_log (e : Event) : bool :=
  match e with EvLog _ => true | _ => false end.

Definition is_probe (e : Event) : bool :=
  match e with EvOutput _ _ => true | _ => false end.

Definition is_make_chan (e : Event) : bool :=
  match e with EvMakeChan _ => true | _ => false end.

Definition is_go (e : Event) : bool :=
  match e with EvGo _ => true | _ => false end.

(** ** Reading an argument vector

    The encoder reads its command line from left to right; an option that
    takes a value consumes the argument after it, whatever that argument
    looks like.  The options below are the value-taking options this
    program emits; [-copyts] and [-sn] take none, and an argument that is
    not an option is an output file. *)

Definition value_options : list string :=
  ["-loglevel"; "-ss"; "-i"; "-to"; "-force_key_frames";
   "-vf"; "-c:v"; "-preset"; "-profile:v"; "-level:v"; "-b:v";
   "-c:a"; "-b:a";
   "-f"; "-segment_time_delta"; "-segment_format"; "-segment_times";
   "-segment_start_number"; "-segment_list_type"; "-segment_list"]%string.

Definition takes_value (a : string) : bool :=
  existsb (String.eqb a) value_options.

Inductive Item : Type :=
| WithValue (opt value : string)   (* an option and the value after it *)
| Alone (word : string).           (* a switch, or an output file *)

Fixpoint items (args : list string) : list Item :=
  match args with
  | [] => []
  | a :: rest =>
      if takes_value a then
        match rest with
        | v :: rest' => WithValue a v :: items rest'
        | [] => [Alone a]
        end
      else Alone a :: items rest
  end.

(** The values given to option [name], in order. *)
Fixpoint option_values (name : string) (its : list Item) : list string :=
  match its with
  | [] => []
  | WithValue opt v :: rest =>
      if String.eqb opt name then v :: option_values name rest
      else option_values name rest
  | Alone _ :: rest => option_values name rest
  end.

(** Option or switch [name] is given. *)
Fixpoint has_option (name : string) (its : list Item) : bool :=
  match its with
  | [] => false
  | WithValue opt _ :: rest => String.eqb opt name || has_option name rest
  | Alone w :: rest => String.eqb w name || has_option name rest
  end.

(** The items before the first [-i]. *)
Fixpoint before_input (its : list Item) : list Item :=
  match its with
  | [] => []
  | WithValue opt v :: rest =>
      if String.eqb opt "-i" then [] else WithValue opt v :: before_input rest
  | Alone w :: rest => Alone w :: before_input rest
  end.

(** ** The shape of a formatted time *)

Definition is_digit (c : ascii) : bool :=
  (48 <=? nat_of_ascii c)%nat && (nat_of_ascii c <=? 57)%nat.

Fixpoint all_digits (s : string) : bool :=
  match s with
  | EmptyString => true
  | String c rest => is_digit c && all_digits rest
  end.

(** [s] cut at its first dot. *)
Fixpoint split_dot (s : string) : option (string * string) :=
  match s with
  | EmptyString => None
  | String c rest =>
      if Ascii.eqb c "."%char then Some (EmptyString, rest)
      else match split_dot rest with
           | Some (a, b) => Some (String c a, b)
           | None => None
           end
  end.

(** An optional minus sign, at least one digit, a dot, exactly six digits. *)
Definition six_decimals (t : string) : bool :=
  let body :=
    match t with
    | String c rest => if Ascii.eqb c "-"%char then rest else t
    | EmptyString => t
    end in
  match split_dot body with
  | Some (ip, fp) =>
      negb (String.eqb ip "") && all_digits ip
      && (String.length fp =? 6)%nat && all_digits fp
  | None => false
  end.

(** A float64 that is a number: not NaN, not an infinity. *)
Definition is_number (x : float64) : bool :=
  match x with
  | S754_zero _ | S754_finite _ _ _ => true
  | S754_infinity _ | S754_nan => false
  end.

(** ** Replacing the first occurrence, in words

    [r] is [s] with the first occurrence of [old] replaced by [new]: [s]
    is cut around an occurrence of [old] before which no other one starts,
    and [r] has [new] in its place; or [old] does not occur in [s], and
    [r] is [s]. *)

Definition occurs (old s : string) : Prop :=
  exists pre post, s = (pre ++ old ++ post)%string.

Definition first_replaced (s old new r : string) : Prop :=
  (exists pre post,
      s = (pre ++ old ++ post)%string /\
      (forall pre' post', s = (pre' ++ old ++ post')%string ->
                          (String.length pre <= String.length pre')%nat) /\
      r = (pre ++ new ++ post)%string)
  \/ (~ occurs old s /\ r = s).

(** ** The anchor of a scale filter

    In the encoder's filter [scale=W:H] a dimension given as [-2] is
    computed from the other one, keeping the aspect ratio and rounding to an
    even number; the other one, given as a number, is fixed. *)

Inductive Anchor : Type := AnchorWidth | AnchorHeight.

Definition anchored_filter (a : Anchor) (profile : VideoProfile) : string :=
  match a with
  | AnchorWidth => ("scale=" ++ itoa (Width profile) ++ ":-2")%string
  | AnchorHeight => ("scale=-2:" ++ itoa (Height profile))%string
  end.

Definition anchor_value (a : Anchor) (profile : VideoProfile) : Z :=
  match a with
  | AnchorWidth => Width profile
  | AnchorHeight => Height profile
  end.

(** ** Names for parts of a run *)

(** The probe binary for an encoder binary (line 167). *)
Definition ffprobe_of (bin : string) : string :=
  strings_Replace1 bin "ffmpeg" "ffprobe".

(** The line logged before the process is started (line 231). *)
Definition start_line (bin : string) (args : list string) : string :=
  ("Starting FFmpeg process with args" ++ " "
   ++ strings_Join (bin :: args) " ")%string.

(** The end of the output pattern (line 227). *)
Definition pattern : string := "-%05d.ts".

(** The items of the video specs and of the audio specs. *)
Definition video_items (profile : VideoProfile) (high : bool) : list Item :=
  [WithValue "-vf" (scale_filter profile);
   WithValue "-c:v" "libx264";
   WithValue "-preset" "faster";
   WithValue "-profile:v" (if high then "high422" else "high");
   WithValue "-level:v" "4.0";
   WithValue "-b:v" (itoa (VBitrate profile) ++ "k")].

Definition audio_items (profile : AudioProfile) : list Item :=
  [WithValue "-c:a" "aac";
   WithValue "-b:a" (itoa (ABitrate profile) ++ "k")].

Definition not_log (e : Event) : bool := negb (is_log e).

End hlsvod.

(* ================================================================== *)
(** * internal/utils/cmdgroup *)
(* ================================================================== *)

Module cmdgroup.
Import Go.

(** [os.Process] and [exec.Cmd], with the fields [platformKill] reads. *)
Record Process : Type := { Pid : Z }.

Record Cmd : Type := { Process_ : option Process }.

Inductive Signal : Type := SIGKILL.

Inductive Event : Type :=
| EvGetpgid (pid : Z)                      (* syscall.Getpgid *)
| EvKill (pid : Z) (sig : Signal)          (* syscall.Kill *)
| EvProcessKill (pid : Z)                  (* os.Process.Kill *)
| EvLogErr (err : error) (msg : string)    (* log.Err(err).Msg(msg) *)
| EvRun (name : string) (args : list string).  (* exec.Command(...).Run() *)

(** ** POSIX variant *)

Module posix.

(** The system calls of the POSIX variant, over a state of the world [W]. *)
Class OS (W : Type) : Type := {
  syscall_Getpgid : Z -> W -> Z * option error;
  syscall_Kill : Z -> Signal -> W -> option error * W;
  Process_Kill : Process -> W -> option error * W
}.

Section PlatformKill.
Context {W : Type} `{OS W}.

Definition platformKill (cmd : option Cmd) (w : W)
  : option error * W * list Event :=
  match cmd with
  | None => (None, w, [])
  | Some c =>
      match Process_ c with
      | None => (None, w, [])
      | Some p =>
          let (pgid, err) := syscall_Getpgid (Pid p) w in
          match err with
          | Some err =>
              (* could not obtain pgid, log and fallback to direct kill *)
              let (r, w') := Process_Kill p w in
              (r, w', [EvGetpgid (Pid p);
                       EvLogErr err "could not get process group id";
                       EvProcessKill (Pid p)])
          | None =>
              let (r, w') := syscall_Kill (- pgid) SIGKILL w in
              (r, w', [EvGetpgid (Pid p); EvKill (- pgid) SIGKILL])
          end
      end
  end.

(** [cmdgroup.Kill]. *)
Definition Kill (cmd : option Cmd) (w : W) : option error * W * list Event :=
  platformKill cmd w.

End PlatformKill.

(** *** Worlds that are told what to answer

    What the operating system answers is no part of the package.  A
    world here is the answers themselves: those the system gives now, and
    those it gives later, one set after another; each termination call
    moves to the next set, [syscall.Getpgid] only asks.  After the last
    set the answers stay as they are. *)

Record Answers : Type := {
  getpgid_answer : Z -> Z * option error;
  kill_answer : Z -> Signal -> option error;
  process_kill_answer : Process -> option error
}.

Record World : Type := { now : Answers; later : list Answers }.

Definition advance (w : World) : World :=
  match later w with
  | [] => w
  | a :: rest => {| now := a; later := rest |}
  end.

#[global] Instance told_OS : OS World := {
  syscall_Getpgid := fun pid w => getpgid_answer (now w) pid;
  syscall_Kill := fun target sig w => (kill_answer (now w) target sig, advance w);
  Process_Kill := fun p w => (process_kill_answer (now w) p, advance w)
}.

End posix.

(** ** Windows variant *)

Module windows.

Class OS (W : Type) : Type := {
  (** [exec.Command(name, args...).Run()] *)
  cmd_Run : string -> list string -> W -> option error * W
}.

Section PlatformKill.
Context {W : Type} `{OS W}.

Definition platformKill (cmd : option Cmd) (w : W)
  : option error * W * list Event :=
  match cmd with
  | None => (None, w, [])
  | Some c =>
      match Process_ c with
      | None => (None, w, [])
      | Some p =>
          (* TASKKILL /T /PID <pid> *)
          let args := ["/T"%string; "/PID"%string; itoa (Pid p)] in
          let (r, w') := cmd_Run "TASKKILL" args w in
          (r, w', [EvRun "TASKKILL" args])
      end
  end.

Definition Kill (cmd : option Cmd) (w : W) : option error * W * list Event :=
  platformKill cmd w.

End PlatformKill.

(** *** Worlds that are told what to answer

    As for the POSIX variant: what a run of a program returns now, and
    what it returns later, each run moving to the next answer. *)

Record World : Type := {
  now : string -> list string -> option error;
  later : list (string -> list string -> option error)
}.

Definition advance (w : World) : World :=
  match later w with
  | [] => w
  | a :: rest => {| now := a; later := rest |}
  end.

#[global] Instance told_OS : OS World := {
  cmd_Run := fun name args w => (now w name args, advance w)
}.

End windows.

(** A command without a process: a nil command, or one never started. *)
Definition never_started (cmd : option Cmd) : Prop :=
  cmd = None \/ exists c, cmd = Some c /\ Process_ c = None.

End cmdgroup.

(* ================================================================== *)
(** * The tasks started by TranscodeSegments (transcode.go, 243-293) *)
(* ================================================================== *)

(** The three goroutines, the encoder process at the other end of the two
    pipes and the caller receiving from the channel, as a transition
    system: a state, and for each actor the one step it can take next, if
    any.  A schedule is the order in which the actors take their steps;
    none is excluded. *)

Module tasks.
Import Go.

(** What the encoder writes: a line on its standard output (the name of a
    finished segment) or on its standard error. *)
Inductive Output : Type :=
| ToStdout (line : string)
| ToStderr (line : string).

(** Where the stdout reader (lines 249-264) stands. *)
Inductive SoPc : Type :=
| SoScan                   (* at scanner.Scan() *)
| SoSend (text : string)   (* at segments <- scanner.Text() *)
| SoWgWait                 (* deferred: at wg.Wait() *)
| SoClose                  (* deferred: at close(segments) *)
| SoDone.

(** Where the stderr reader (lines 267-278) stands. *)
Inductive SePc : Type :=
| SeScan                   (* at scanner.Scan() *)
| SeWgDone                 (* deferred: at wg.Done() *)
| SeDone.

(** Where the exit waiter (lines 284-293) stands. *)
Inductive WtPc : Type :=
| WtWait                   (* at cmd.Wait() *)
| WtWgDone                 (* deferred: at wg.Done() *)
| WtDone.

(** What the three goroutines log themselves. *)
Inductive Note : Type :=
| StdoutReadError   (* "Error while reading FFmpeg stdout:", lines 261-263 *)
| StderrReadError   (* "Error while reading FFmpeg stderr:", lines 275-277 *)
| WaitError         (* "FFmpeg process exited with error:", line 289 *)
| WaitSuccess.      (* "FFmpeg process successfully finished.", line 291 *)

Record State : Type := {
  script : list Output;     (* what the encoder has still to write *)
  exited : bool;            (* the encoder process is gone *)
  pipe_out : list string;   (* written to stdout, not yet read *)
  pipe_err : list string;   (* written to stderr, not yet read *)
  pipes_closed : bool;      (* cmd.Wait has closed the read ends *)
  so : SoPc;
  se : SePc;
  wt : WtPc;
  wg : Z;                   (* the WaitGroup counter *)
  buf : list string;        (* the buffer of the channel segments *)
  closed : nat;             (* how many times close(segments) has run *)
  eof : bool;               (* the stdout reader has seen Scan return false *)
  taken : list string;      (* the lines the stdout reader has read *)
  logged : list string;     (* the stderr lines handed to the logger *)
  received : list string;   (* what the caller has received *)
  caller_done : bool;       (* the caller has seen the channel closed *)
  exit_ok : bool;           (* the encoder has ended with status 0 *)
  notes : list Note         (* what the goroutines have logged themselves *)
}.

Inductive Actor : Type :=
| Encoder        (* the encoder writes its next line *)
| EncoderExit    (* the encoder ends with an error: failed or killed *)
| EncoderFinish  (* the encoder ends with status 0 *)
| Stdout         (* the stdout reader *)
| Stderr         (* the stderr reader *)
| Waiter         (* the exit waiter *)
| Caller.        (* the caller, receiving from the channel *)

(** The capacity given to [make(chan string, 1)]. *)
Definition chan_capacity : nat := hlsvod.capacity hlsvod.segments.

Definition encoder_step (s : State) : option State :=
  if exited s then None
  else match script s with
       | [] => None
       | ToStdout l :: rest =>
           Some {| script := rest; exited := exited s;
                   pipe_out := pipe_out s ++ [l]; pipe_err := pipe_err s;
                   pipes_closed := pipes_closed s;
                   so := so s; se := se s; wt := wt s; wg := wg s;
                   buf := buf s; closed := closed s; eof := eof s;
                   taken := taken s; logged := logged s;
                   received := received s; caller_done := caller_done s;
                   exit_ok := exit_ok s; notes := notes s |}
       | ToStderr l :: rest =>
           Some {| script := rest; exited := exited s;
                   pipe_out := pipe_out s; pipe_err := pipe_err s ++ [l];
                   pipes_closed := pipes_closed s;
                   so := so s; se := se s; wt := wt s; wg := wg s;
                   buf := buf s; closed := closed s; eof := eof s;
                   taken := taken s; logged := logged s;
                   received := received s; caller_done := caller_done s;
                   exit_ok := exit_ok s; notes := notes s |}
       end.

Definition encoder_exit_step (s : State) : option State :=
  if exited s then None
  else Some {| script := []; exited := true;
               pipe_out := pipe_out s; pipe_err := pipe_err s;
               pipes_closed := pipes_closed s;
               so := so s; se := se s; wt := wt s; wg := wg s;
               buf := buf s; closed := closed s; eof := eof s;
               taken := taken s; logged := logged s;
               received := received s; caller_done := caller_done s;
               exit_ok := exit_ok s; notes := notes s |}.

(** The encoder ends with status 0; what it had still to write is never
    written. *)
Definition encoder_finish_step (s : State) : option State :=
  if exited s then None
  else Some {| script := []; exited := true;
               pipe_out := pipe_out s; pipe_err := pipe_err s;
               pipes_closed := pipes_closed s;
               so := so s; se := se s; wt := wt s; wg := wg s;
               buf := buf s; closed := closed s; eof := eof s;
               taken := taken s; logged := logged s;
               received := received s; caller_done := caller_done s;
               exit_ok := true; notes := notes s |}.

Definition with_so (s : State) (pc : SoPc) : State :=
  {| script := script s; exited := exited s;
     pipe_out := pipe_out s; pipe_err := pipe_err s;
     pipes_closed := pipes_closed s;
     so := pc; se := se s; wt := wt s; wg := wg s;
     buf := buf s; closed := closed s; eof := eof s;
     taken := taken s; logged := logged s;
     received := received s; caller_done := caller_done s;
     exit_ok := exit_ok s; notes := notes s |}.

(** [scanner.Scan()] returned false: the loop is left and the deferred
    function starts. *)
Definition scan_false (s : State) : State :=
  {| script := script s; exited := exited s;
     pipe_out := pipe_out s; pipe_err := pipe_err s;
     pipes_closed := pipes_closed s;
     so := SoWgWait; se := se s; wt := wt s; wg := wg s;
     buf := buf s; closed := closed s; eof := true;
     taken := taken s; logged := logged s;
     received := received s; caller_done := caller_done s;
     exit_ok := exit_ok s; notes := notes s |}.

(** [scanner.Scan()] returned false on a read error: the loop is left,
    the error is logged (lines 261-263) and the deferred function starts. *)
Definition scan_failed (s : State) : State :=
  {| script := script s; exited := exited s;
     pipe_out := pipe_out s; pipe_err := pipe_err s;
     pipes_closed := pipes_closed s;
     so := SoWgWait; se := se s; wt := wt s; wg := wg s;
     buf := buf s; closed := closed s; eof := true;
     taken := taken s; logged := logged s;
     received := received s; caller_done := caller_done s;
     exit_ok := exit_ok s; notes := notes s ++ [StdoutReadError] |}.

Definition stdout_step (s : State) : option State :=
  match so s with
  | SoScan =>
      if pipes_closed s then Some (scan_failed s)  (* read error: file closed *)
      else match pipe_out s with
           | l :: rest =>
               Some {| script := script s; exited := exited s;
                       pipe_out := rest; pipe_err := pipe_err s;
                       pipes_closed := pipes_closed s;
                       so := SoSend l; se := se s; wt := wt s; wg := wg s;
                       buf := buf s; closed := closed s; eof := eof s;
                       taken := taken s ++ [l]; logged := logged s;
                       received := received s; caller_done := caller_done s;
                       exit_ok := exit_ok s; notes := notes s |}
           | [] => if exited s then Some (scan_false s)   (* end of stream *)
                   else None
           end
  | SoSend l =>
      if (List.length (buf s) <? chan_capacity)%nat then
        Some {| script := script s; exited := exited s;
                pipe_out := pipe_out s; pipe_err := pipe_err s;
                pipes_closed := pipes_closed s;
                so := SoScan; se := se s; wt := wt s; wg := wg s;
                buf := buf s ++ [l]; closed := closed s; eof := eof s;
                taken := taken s; logged := logged s;
                received := received s; caller_done := caller_done s;
                exit_ok := exit_ok s; notes := notes s |}
      else None
  | SoWgWait => if wg s =? 0 then Some (with_so s SoClose) else None
  | SoClose =>
      Some {| script := script s; exited := exited s;
              pipe_out := pipe_out s; pipe_err := pipe_err s;
              pipes_closed := pipes_closed s;
              so := SoDone; se := se s; wt := wt s; wg := wg s;
              buf := buf s; closed := S (closed s); eof := eof s;
              taken := taken s; logged := logged s;
              received := received s; caller_done := caller_done s;
              exit_ok := exit_ok s; notes := notes s |}
  | SoDone => None
  end.

Definition with_se (s : State) (pc : SePc) (n : Z) : State :=
  {| script := script s; exited := exited s;
     pipe_out := pipe_out s; pipe_err := pipe_err s;
     pipes_closed := pipes_closed s;
     so := so s; se := pc; wt := wt s; wg := n;
     buf := buf s; closed := closed s; eof := eof s;
     taken := taken s; logged := logged s;
     received := received s; caller_done := caller_done s;
     exit_ok := exit_ok s; notes := notes s |}.

(** The stderr reader's Scan returned false on a read error, which is
    logged (lines 275-277). *)
Definition stderr_failed (s : State) : State :=
  {| script := script s; exited := exited s;
     pipe_out := pipe_out s; pipe_err := pipe_err s;
     pipes_closed := pipes_closed s;
     so := so s; se := SeWgDone; wt := wt s; wg := wg s;
     buf := buf s; closed := closed s; eof := eof s;
     taken := taken s; logged := logged s;
     received := received s; caller_done := caller_done s;
     exit_ok := exit_ok s; notes := notes s ++ [StderrReadError] |}.

Definition stderr_step (s : State) : option State :=
  match se s with
  | SeScan =>
      if pipes_closed s then Some (stderr_failed s)
      else match pipe_err s with
           | l :: rest =>
               Some {| script := script s; exited := exited s;
                       pipe_out := pipe_out s; pipe_err := rest;
                       pipes_closed := pipes_closed s;
                       so := so s; se := SeScan; wt := wt s; wg := wg s;
                       buf := buf s; closed := closed s; eof := eof s;
                       taken := taken s; logged := logged s ++ [l];
                       received := received s; caller_done := caller_done s;
                       exit_ok := exit_ok s; notes := notes s |}
           | [] => if exited s then Some (with_se s SeWgDone (wg s)) else None
           end
  | SeWgDone => Some (with_se s SeDone (wg s - 1))
  | SeDone => None
  end.

(** What the exit waiter logs for the result of [cmd.Wait] (lines
    287-292): the error line when the process did not end with status 0,
    or was never started, the success line otherwise. *)
Definition wait_note (ok : bool) : Note :=
  if ok then WaitSuccess else WaitError.

(** [cmd.Wait()] returns once the process is gone, and closes the read
    ends of both pipes before it does; what was not read is lost.  Its
    result is logged before the deferred wg.Done. *)
Definition waiter_step (s : State) : option State :=
  match wt s with
  | WtWait =>
      if exited s then
        Some {| script := script s; exited := exited s;
                pipe_out := []; pipe_err := [];
                pipes_closed := true;
                so := so s; se := se s; wt := WtWgDone; wg := wg s;
                buf := buf s; closed := closed s; eof := eof s;
                taken := taken s; logged := logged s;
                received := received s; caller_done := caller_done s;
                exit_ok := exit_ok s;
                notes := notes s ++ [wait_note (exit_ok s)] |}
      else None
  | WtWgDone =>
      Some {| script := script s; exited := exited s;
              pipe_out := pipe_out s; pipe_err := pipe_err s;
              pipes_closed := pipes_closed s;
              so := so s; se := se s; wt := WtDone; wg := wg s - 1;
              buf := buf s; closed := closed s; eof := eof s;
              taken := taken s; logged := logged s;
              received := received s; caller_done := caller_done s;
              exit_ok := exit_ok s; notes := notes s |}
  | WtDone => None
  end.

(** The caller receives what is buffered, and sees the channel closed
    once it is closed and empty. *)
Definition caller_step (s : State) : option State :=
  match buf s with
  | x :: rest =>
      Some {| script := script s; exited := exited s;
              pipe_out := pipe_out s; pipe_err := pipe_err s;
              pipes_closed := pipes_closed s;
              so := so s; se := se s; wt := wt s; wg := wg s;
              buf := rest; closed := closed s; eof := eof s;
              taken := taken s; logged := logged s;
              received := received s ++ [x]; caller_done := caller_done s;
              exit_ok := exit_ok s; notes := notes s |}
  | [] =>
      if (0 <? closed s)%nat && negb (caller_done s) then
        Some {| script := script s; exited := exited s;
                pipe_out := pipe_out s; pipe_err := pipe_err s;
                pipes_closed := pipes_closed s;
                so := so s; se := se s; wt := wt s; wg := wg s;
                buf := buf s; closed := closed s; eof := eof s;
                taken := taken s; logged := logged s;
                received := received s; caller_done := true;
                exit_ok := exit_ok s; notes := notes s |}
      else None
  end.

Definition step (a : Actor) (s : State) : option State :=
  match a with
  | Encoder => encoder_step s
  | EncoderExit => encoder_exit_step s
  | EncoderFinish => encoder_finish_step s
  | Stdout => stdout_step s
  | Stderr => stderr_step s
  | Waiter => waiter_step s
  | Caller => caller_step s
  end.

(** Running a schedule; [None] when an actor is asked for a step it cannot
    take. *)
Fixpoint exec (sched : list Actor) (s : State) : option State :=
  match sched with
  | [] => Some s
  | a :: rest =>
      match step a s with
      | Some s' => exec rest s'
      | None => None
      end
  end.

(** The state in which [TranscodeSegments] returns the channel: wg.Add(2)
    done, the channel made, the three goroutines started.  [started] is
    whether [cmd.Start()] succeeded; when it did not there is no process,
    nothing will ever be written, and [cmd.Wait] returns at once with the
    error that the command was not started, which the exit waiter logs.
    A failed Start has closed both ends of the pipes itself, so that a
    reader finds the end of the stream or a closed file, depending on
    when it reads: here the first before the step of the exit waiter, the
    second after it. *)
Definition init (started : bool) (output : list Output) : State :=
  {| script := if started then output else [];
     exited := negb started;
     pipe_out := []; pipe_err := [];
     pipes_closed := false;
     so := SoScan; se := SeScan; wt := WtWait; wg := 2;
     buf := []; closed := 0; eof := false;
     taken := []; logged := [];
     received := []; caller_done := false;
     exit_ok := false; notes := [] |}.

(** An upper bound on the number of steps left. *)
Definition output_weight (o : Output) : nat :=
  match o with ToStdout _ => 4 | ToStderr _ => 2 end.

Definition so_weight (pc : SoPc) : nat :=
  match pc with
  | SoScan => 3 | SoSend _ => 5 | SoWgWait => 2 | SoClose => 1 | SoDone => 0
  end.

Definition se_weight (pc : SePc) : nat :=
  match pc with SeScan => 2 | SeWgDone => 1 | SeDone => 0 end.

Definition wt_weight (pc : WtPc) : nat :=
  match pc with WtWait => 2 | WtWgDone => 1 | WtDone => 0 end.

Definition steps_left (s : State) : nat :=
  (list_sum (map output_weight (script s))
   + (if exited s then 0 else 1)
   + 3 * List.length (pipe_out s) + List.length (pipe_err s)
   + so_weight (so s) + se_weight (se s) + wt_weight (wt s)
   + List.length (buf s)
   + (if caller_done s then 0 else 1))%nat.

(** The stdout lines of an output. *)
Fixpoint stdout_lines (output : list Output) : list string :=
  match output with
  | [] => []
  | ToStdout l :: rest => l :: stdout_lines rest
  | ToStderr _ :: rest => stdout_lines rest
  end.

(** ** What holds in every state that can be reached *)

Definition se_left (pc : SePc) : Z :=
  match pc with SeDone => 0 | _ => 1 end.

Definition wt_left (pc : WtPc) : Z :=
  match pc with WtDone => 0 | _ => 1 end.

Definition so_closed (pc : SoPc) : nat :=
  match pc with SoDone => 1%nat | _ => 0%nat end.

Definition so_past_loop (pc : SoPc) : bool :=
  match pc with SoScan | SoSend _ => false | _ => true end.

Definition so_past_wait (pc : SoPc) : bool :=
  match pc with SoClose | SoDone => true | _ => false end.

Definition pending (pc : SoPc) : list string :=
  match pc with SoSend l => [l] | _ => [] end.

Definition wt_past_wait (pc : WtPc) : bool :=
  match pc with WtWait => false | _ => true end.

Record inv (s : State) : Prop := {
  (* the counter counts the two tasks that have not called wg.Done *)
  inv_wg : wg s = se_left (se s) + wt_left (wt s);
  (* the channel is closed by the last step of the stdout reader *)
  inv_closed : closed s = so_closed (so s);
  inv_eof : eof s = so_past_loop (so s);
  (* wg.Wait has returned only on a counter of zero *)
  inv_wait : so_past_wait (so s) = true -> wg s = 0;
  (* every line read is received, buffered, or about to be sent *)
  inv_taken : taken s = received s ++ buf s ++ pending (so s);
  inv_pipes : pipes_closed s = wt_past_wait (wt s);
  inv_exited : wt_past_wait (wt s) = true -> exited s = true;
  inv_caller : caller_done s = true -> so s = SoDone /\ buf s = []
}.

End tasks.

(* ================================================================== *)
(** * Concrete inputs *)
(* ================================================================== *)

Module inputs.
Import Go hlsvod cmdgroup tasks.

(** A world in which the probe reports one 10-bit 4:2:2 stream and every
    call succeeds. *)
Definition env_ok : Env := {|
  cmd_Output := fun _ _ => ("{}"%string, None);
  json_Unmarshal :=
    fun _ => ({| Streams := [ {| PixelFormat := "yuv422p10le" |} ] |}, None);
  cmd_StdoutPipe := None;
  cmd_StderrPipe := None;
  cmd_Start := fun _ _ => None
|}.

(** The same world, in which the probe cannot be run. *)
Definition env_no_probe : Env := {|
  cmd_Output := fun _ _ => (""%string, Some (ExitError 1));
  json_Unmarshal := json_Unmarshal env_ok;
  cmd_StdoutPipe := None;
  cmd_StderrPipe := None;
  cmd_Start := fun _ _ => None
|}.

(** The same world, in which the probe reports a 4:2:0 stream. *)
Definition env_420 : Env := {|
  cmd_Output := fun _ _ => ("{}"%string, None);
  json_Unmarshal :=
    fun _ => ({| Streams := [ {| PixelFormat := "yuv420p" |} ] |}, None);
  cmd_StdoutPipe := None;
  cmd_StderrPipe := None;
  cmd_Start := fun _ _ => None
|}.

(** A world in which the encoder cannot be started. *)
Definition env_no_start : Env := {|
  cmd_Output := cmd_Output env_ok;
  json_Unmarshal := json_Unmarshal env_ok;
  cmd_StdoutPipe := None;
  cmd_StderrPipe := None;
  cmd_Start := fun _ _ => Some (Errno 2)
|}.

Definition ffmpeg : string := "/usr/bin/ffmpeg".

(** Boundaries 0, 2, 4, 6; prefix seg; offset 0; 1280x720 video and audio. *)
Definition cfg_0246 : TranscodeConfig := {|
  InputFilePath := "in.mkv";
  OutputDirPath := "out";
  SegmentPrefix := "seg";
  SegmentOffset := 0;
  SegmentTimes := [f64_zero; f64 2 0; f64 4 0; f64 6 0];
  VideoProfile_ := Some {| Width := 1280; Height := 720; VBitrate := 3000 |};
  AudioProfile_ := Some {| ABitrate := 128 |}
|}.

(** Boundaries 4, 6, 8: a later part of the same input. *)
Definition cfg_468 : TranscodeConfig := {|
  InputFilePath := "in.mkv";
  OutputDirPath := "out";
  SegmentPrefix := "seg";
  SegmentOffset := 2;
  SegmentTimes := [f64 4 0; f64 6 0; f64 8 0];
  VideoProfile_ := Some {| Width := 1280; Height := 720; VBitrate := 3000 |};
  AudioProfile_ := None
|}.

Definition landscape : VideoProfile :=
  {| Width := 1280; Height := 720; VBitrate := 3000 |}.

(** What the system answers while process 100 runs, leading its own
    group: the group of pid 100 is 100, and both ways of terminating it
    succeed. *)
Definition answers_alive : posix.Answers := {|
  posix.getpgid_answer :=
    fun pid => if pid =? 100 then (100, None) else (-1, Some (Errno ESRCH));
  posix.kill_answer := fun _ _ => None;
  posix.process_kill_answer := fun _ => None
|}.

(** What the system answers once process 100 has exited and has been
    waited for: getpgid(2) and kill(2) fail with ESRCH, and
    [os.Process.Kill] returns [os.ErrProcessDone]. *)
Definition answers_gone : posix.Answers := {|
  posix.getpgid_answer := fun _ => (-1, Some (Errno ESRCH));
  posix.kill_answer := fun _ _ => Some (Errno ESRCH);
  posix.process_kill_answer := fun _ => Some ErrProcessDone
|}.

(** Process 100 runs; after the first termination call it has exited
    and has been waited for, as the exit waiter of TranscodeSegments
    does. *)
Definition killed_then_waited : posix.World :=
  {| posix.now := answers_alive; posix.later := [answers_gone] |}.

(** Process 100 is gone from the start. *)
Definition gone : posix.World :=
  {| posix.now := answers_gone; posix.later := [] |}.

Definition cmd_100 : option Cmd :=
  Some {| Process_ := Some {| Pid := 100 |} |}.

Definition cmd_unstarted : option Cmd := Some {| Process_ := None |}.

(** Windows: the run of TASKKILL succeeds while the process it names
    runs, and ends with status 128 once no process has that id. *)
Definition taskkill_alive (name : string) (args : list string) : option error :=
  None.

Definition taskkill_gone (name : string) (args : list string) : option error :=
  Some (ExitError 128).

Definition killed_then_gone : windows.World :=
  {| windows.now := taskkill_alive; windows.later := [taskkill_gone] |}.

Definition gone_windows : windows.World :=
  {| windows.now := taskkill_gone; windows.later := [] |}.

Definition two_segments : list Output :=
  [ToStdout "seg-00000.ts"; ToStderr "frame dropped"; ToStdout "seg-00001.ts"].

Definition one_segment : list Output := [ToStdout "seg-00000.ts"].

(** A schedule for it in which the exit waiter is served before the
    stdout reader: the encoder writes its line and ends with status 0,
    [cmd.Wait] returns, and only then does the reader call Scan. *)
Definition waiter_first : list Actor :=
  [Encoder; EncoderFinish; Waiter; Stdout; Stderr; Stderr; Waiter; Stdout;
   Stdout; Caller].

(** A schedule for it: the encoder writes everything, the readers and the
    caller take turns, the encoder ends, the waiter returns. *)
Definition one_schedule : list Actor :=
  [Encoder; Encoder; Encoder; Stdout; Stdout; Caller; Stdout; EncoderExit;
   Stderr; Stderr; Stdout; Caller; Stdout; Stderr; Waiter; Waiter; Stdout;
   Stdout; Caller].

End inputs.

(* ================================================================== *)
(** * Further readings of a run *)
(* ================================================================== *)

Module readings.
Import Go hlsvod.

(** [errors.Unwrap]: what an error made with [%w] wraps. *)
Definition Unwrap (e : error) : option error :=
  match e with
  | wrapError _ inner => Some inner
  | _ => None
  end.

(** The fields of [s] between the occurrences of [sep], as the encoder
    cuts a list of times at its commas. *)
Fixpoint fields (sep : ascii) (s : string) : list string :=
  match s with
  | EmptyString => [EmptyString]
  | String c rest =>
      if Ascii.eqb c sep then EmptyString :: fields sep rest
      else match fields sep rest with
           | hd :: tl => String c hd :: tl
           | [] => [String c EmptyString]
           end
  end.

(** [c] occurs in [s]. *)
Fixpoint has_char (c : ascii) (s : string) : bool :=
  match s with
  | EmptyString => false
  | String x rest => Ascii.eqb x c || has_char c rest
  end.

(** [s] ends with [suffix]. *)
Fixpoint ends_with (suffix s : string) : bool :=
  String.eqb s suffix
  || match s with
     | EmptyString => false
     | String _ rest => ends_with suffix rest
     end.

(** A pointer is not nil. *)
Definition present {A : Type} (o : option A) : bool :=
  match o with Some _ => true | None => false end.

Definition is_start (e : Event) : bool :=
  match e with EvStart => true | _ => false end.

Definition is_command (e : Event) : bool :=
  match e with EvCommand _ _ => true | _ => false end.

(** The events from the first pipe to the last go statement, when both
    pipes are set up (lines 233-293). *)
Definition launch : list Event :=
  [EvStdoutPipe; EvStderrPipe; EvMakeChan segments;
   EvGo StdoutReader; EvGo StderrReader; EvStart; EvGo ExitWaiter].

End readings.

Module tasks_readings.
Import Go tasks.

(** The stderr lines of an output. *)
Fixpoint stderr_lines (output : list Output) : list string :=
  match output with
  | [] => []
  | ToStdout _ :: rest => stderr_lines rest
  | ToStderr l :: rest => l :: stderr_lines rest
  end.

(** The stdout lines that can still reach the caller, or have: read,
    written and unread, or still to be written. *)
Definition stdout_ahead (s : State) : list string :=
  taken s ++ pipe_out s ++ stdout_lines (script s).

Definition stderr_ahead (s : State) : list string :=
  logged s ++ pipe_err s ++ stderr_lines (script s).

(** Both are beginnings of what the encoder was to write, and an encoder
    that is gone has nothing left to write. *)
Record ahead (out err : list string) (s : State) : Prop := {
  ahead_script : exited s = true -> script s = [];
  ahead_out : exists d, out = stdout_ahead s ++ d;
  ahead_err : exists d, err = stderr_ahead s ++ d
}.

(** What the exit waiter has logged: the two lines about the result of
    [cmd.Wait]. *)
Definition is_wait_note (n : Note) : bool :=
  match n with
  | WaitError | WaitSuccess => true
  | StdoutReadError | StderrReadError => false
  end.

Definition waiter_notes (l : list Note) : list Note := filter is_wait_note l.

(** What holds of a process that was never started: there is none, it has
    not ended with status 0, and the exit waiter logs the error of
    [cmd.Wait] when it is past that call. *)
Record unstarted (s : State) : Prop := {
  unstarted_exited : exited s = true;
  unstarted_exit_ok : exit_ok s = false;
  unstarted_notes :
    waiter_notes (notes s) = if wt_past_wait (wt s) then [WaitError] else []
}.

End tasks_readings.

Module more_inputs.
Import Go hlsvod cmdgroup.

(** A world in which the standard error pipe cannot be set up. *)
Definition env_no_stderr : Env := {|
  cmd_Output := cmd_Output inputs.env_ok;
  json_Unmarshal := json_Unmarshal inputs.env_ok;
  cmd_StdoutPipe := None;
  cmd_StderrPipe := Some (Errno 24);
  cmd_Start := fun _ _ => None
|}.

(** A configuration with a single boundary time. *)
Definition cfg_one_time : TranscodeConfig := {|
  InputFilePath := "in.mkv";
  OutputDirPath := "out";
  SegmentPrefix := "seg";
  SegmentOffset := 0;
  SegmentTimes := [f64_zero];
  VideoProfile_ := Some inputs.landscape;
  AudioProfile_ := None
|}.

(** Audio only. *)
Definition cfg_audio : TranscodeConfig := {|
  InputFilePath := "in.mkv";
  OutputDirPath := "out";
  SegmentPrefix := "seg";
  SegmentOffset := 0;
  SegmentTimes := [f64_zero; f64 2 0; f64 4 0];
  VideoProfile_ := None;
  AudioProfile_ := Some {| ABitrate := 128 |}
|}.

End more_inputs.

(* ================================================================== *)
(** * Properties of hlsvod *)
(* ================================================================== *)

Module hlsvod_facts.
Import Go hlsvod.

(** ** Strings *)

Lemma length_append (a b : string) :
  String.length (a ++ b)%string = (String.length a + String.length b)%nat.
Proof.
  induction a as [| c a IH]; cbn [append String.length];
    [reflexivity | now rewrite IH].
Qed.

Lemma append_assoc (a b c : string) :
  ((a ++ b) ++ c)%string = (a ++ (b ++ c))%string.
Proof.
  induction a as [| x a IH]; cbn [append]; [reflexivity | now rewrite IH].
Qed.

(** ** Formatted numbers *)

Lemma digit_is_digit (d : Z) : 0 <= d < 10 -> is_digit (digit d) = true.
Proof.
  intros Hd.
  assert (Hcases : d = 0 \/ d = 1 \/ d = 2 \/ d = 3 \/ d = 4 \/ d = 5
                   \/ d = 6 \/ d = 7 \/ d = 8 \/ d = 9) by lia.
  repeat (destruct Hcases as [-> | Hcases]; [reflexivity | ]).
  subst d; reflexivity.
Qed.

Lemma mod10_digit (n : Z) : is_digit (digit (n mod 10)) = true.
Proof. apply digit_is_digit, Z.mod_pos_bound; lia. Qed.

Lemma utoa_aux_digits (fuel : nat) :
  forall n acc, all_digits acc = true ->
                all_digits (utoa_aux fuel n acc) = true.
Proof.
  induction fuel as [| fuel IH]; intros n acc Hacc; cbn [utoa_aux];
    [exact Hacc | ].
  destruct (n / 10 =? 0).
  - cbn [all_digits]. now rewrite mod10_digit.
  - apply IH. cbn [all_digits]. now rewrite mod10_digit.
Qed.

Lemma utoa_aux_grows (fuel : nat) :
  forall n acc, (String.length acc <= String.length (utoa_aux fuel n acc))%nat.
Proof.
  induction fuel as [| fuel IH]; intros n acc; cbn [utoa_aux]; [lia | ].
  destruct (n / 10 =? 0); cbn [String.length]; [lia | ].
  specialize (IH (n / 10) (String (digit (n mod 10)) acc)).
  cbn [String.length] in IH. lia.
Qed.

Lemma utoa_digits (n : Z) : all_digits (utoa n) = true.
Proof. unfold utoa. now apply utoa_aux_digits. Qed.

Lemma utoa_nonempty (n : Z) : utoa n <> EmptyString.
Proof.
  unfold utoa. intros Heq.
  pose proof (utoa_aux_grows (Z.to_nat (Z.log2 n)) (n / 10)
                (String (digit (n mod 10)) EmptyString)) as Hlen.
  cbn [utoa_aux] in Heq. destruct (n / 10 =? 0); [discriminate | ].
  rewrite Heq in Hlen. cbn [String.length] in Hlen. lia.
Qed.

Lemma frac6_digits (r : Z) : all_digits (frac6 r) = true.
Proof. unfold frac6. cbn [all_digits]. now rewrite !mod10_digit. Qed.

Lemma frac6_length (r : Z) : String.length (frac6 r) = 6%nat.
Proof. reflexivity. Qed.

Lemma digit_not_dot (c : ascii) :
  is_digit c = true -> Ascii.eqb c "."%char = false.
Proof.
  intros Hc. destruct (Ascii.eqb_spec c "."%char) as [-> | _];
    [discriminate Hc | reflexivity].
Qed.

Lemma digit_not_minus (c : ascii) :
  is_digit c = true -> Ascii.eqb c "-"%char = false.
Proof.
  intros Hc. destruct (Ascii.eqb_spec c "-"%char) as [-> | _];
    [discriminate Hc | reflexivity].
Qed.

Lemma split_dot_digits (ip fp : string) :
  all_digits ip = true ->
  split_dot (ip ++ String "."%char fp)%string = Some (ip, fp).
Proof.
  induction ip as [| c ip IH]; cbn [all_digits append split_dot]; intros Hip.
  - reflexivity.
  - apply andb_prop in Hip. destruct Hip as [Hc Hip].
    now rewrite (digit_not_dot c Hc), (IH Hip).
Qed.

Lemma six_decimals_unsigned (ip fp : string) :
  ip <> EmptyString -> all_digits ip = true ->
  String.length fp = 6%nat -> all_digits fp = true ->
  six_decimals (ip ++ String "."%char fp)%string = true.
Proof.
  intros Hne Hip Hlen Hfp. unfold six_decimals.
  destruct ip as [| c ip]; [congruence | ].
  change ((String c ip ++ String "."%char fp)%string)
    with (String c (ip ++ String "."%char fp)%string).
  pose proof Hip as Hip'.
  cbn [all_digits] in Hip. apply andb_prop in Hip. destruct Hip as [Hc Hip].
  rewrite (digit_not_minus c Hc).
  change (String c (ip ++ String "."%char fp)%string)
    with ((String c ip ++ String "."%char fp)%string).
  rewrite split_dot_digits by exact Hip'.
  rewrite Hip', Hlen, Hfp. reflexivity.
Qed.

Lemma six_decimals_signed (ip fp : string) :
  ip <> EmptyString -> all_digits ip = true ->
  String.length fp = 6%nat -> all_digits fp = true ->
  six_decimals (String "-"%char (ip ++ String "."%char fp))%string = true.
Proof.
  intros Hne Hip Hlen Hfp. unfold six_decimals.
  rewrite Ascii.eqb_refl, split_dot_digits by exact Hip.
  destruct ip as [| c ip]; [congruence | ].
  rewrite Hip, Hlen, Hfp. reflexivity.
Qed.

(** ** The digits denote the number *)

Lemma digit_value (d : Z) :
  0 <= d < 10 -> Z.of_nat (nat_of_ascii (digit d)) - 48 = d.
Proof.
  intros Hd.
  assert (Hcases : d = 0 \/ d = 1 \/ d = 2 \/ d = 3 \/ d = 4 \/ d = 5
                   \/ d = 6 \/ d = 7 \/ d = 8 \/ d = 9) by lia.
  repeat (destruct Hcases as [-> | Hcases]; [reflexivity | ]).
  subst d; reflexivity.
Qed.

Lemma utoa_aux_acc (fuel : nat) :
  forall n acc, utoa_aux fuel n acc = (utoa_aux fuel n EmptyString ++ acc)%string.
Proof.
  induction fuel as [| fuel IH]; intros n acc; cbn [utoa_aux]; [reflexivity | ].
  destruct (n / 10 =? 0); [reflexivity | ].
  rewrite (IH (n / 10) (String (digit (n mod 10)) acc)),
          (IH (n / 10) (String (digit (n mod 10)) EmptyString)).
  rewrite append_assoc. reflexivity.
Qed.

Lemma digits_value_app (a b : string) (acc : Z) :
  digits_value (a ++ b) acc = digits_value b (digits_value a acc).
Proof.
  revert acc. induction a as [| c a IH]; intros acc; cbn [append digits_value];
    [reflexivity | apply IH].
Qed.

(** The fuel is enough: the digits of [n] denote [n]. *)
Lemma utoa_aux_value (fuel : nat) :
  forall n, 0 <= n < 2 ^ Z.of_nat fuel ->
            digits_value (utoa_aux fuel n EmptyString) 0 = n.
Proof.
  induction fuel as [| fuel IH]; intros n Hn.
  - cbn [utoa_aux digits_value]. change (2 ^ Z.of_nat 0) with 1 in Hn. lia.
  - cbn [utoa_aux].
    pose proof (Z.mod_pos_bound n 10 ltac:(lia)) as Hmod.
    pose proof (Z.div_mod n 10 ltac:(lia)) as Hdm.
    destruct (Z.eqb_spec (n / 10) 0) as [Hz | Hnz].
    + cbn [digits_value]. rewrite digit_value by exact Hmod. lia.
    + rewrite utoa_aux_acc, digits_value_app.
      rewrite IH.
      * cbn [digits_value]. rewrite digit_value by exact Hmod. lia.
      * rewrite Nat2Z.inj_succ, Z.pow_succ_r in Hn by lia.
        split; [apply Z.div_pos; lia | ].
        apply Z.div_lt_upper_bound; lia.
Qed.

Lemma utoa_value (n : Z) : 0 <= n -> digits_value (utoa n) 0 = n.
Proof.
  intros Hn. unfold utoa. apply utoa_aux_value.
  split; [exact Hn | ].
  rewrite Nat2Z.inj_succ, Z2Nat.id by apply Z.log2_nonneg.
  destruct (Z.eq_dec n 0) as [-> | Hnz]; [reflexivity | ].
  apply Z.log2_spec. lia.
Qed.

Lemma frac6_value (r : Z) :
  0 <= r < 1000000 -> digits_value (frac6 r) 0 = r.
Proof.
  intros Hr. unfold frac6. cbn [digits_value].
  rewrite !digit_value by (apply Z.mod_pos_bound; lia).
  assert (H5 : r / 100000 = r / 10000 / 10) by (rewrite Z.div_div; [reflexivity | lia | lia]).
  assert (H4 : r / 10000 = r / 1000 / 10) by (rewrite Z.div_div; [reflexivity | lia | lia]).
  assert (H3 : r / 1000 = r / 100 / 10) by (rewrite Z.div_div; [reflexivity | lia | lia]).
  assert (H2 : r / 100 = r / 10 / 10) by (rewrite Z.div_div; [reflexivity | lia | lia]).
  assert (H6 : r / 100000 < 10) by (apply Z.div_lt_upper_bound; lia).
  assert (H7 : 0 <= r / 100000) by (apply Z.div_pos; lia).
  rewrite (Z.mod_small (r / 100000) 10) by lia.
  pose proof (Z.div_mod r 10 ltac:(lia)) as D0.
  pose proof (Z.div_mod (r / 10) 10 ltac:(lia)) as D1.
  pose proof (Z.div_mod (r / 100) 10 ltac:(lia)) as D2.
  pose proof (Z.div_mod (r / 1000) 10 ltac:(lia)) as D3.
  pose proof (Z.div_mod (r / 10000) 10 ltac:(lia)) as D4.
  lia.
Qed.

(** [scaled6 m e] is the integer nearest to [m * 2^e * 10^6]: twice their
    distance, counted in units of [2^e], is at most one unit. *)
Lemma scaled6_nearest (m : positive) (e : Z) :
  0 <= scaled6 m e
  /\ (0 <= e -> scaled6 m e = Z.pos m * 2 ^ e * 1000000)
  /\ (e < 0 ->
      Z.abs (2 * (scaled6 m e * 2 ^ (- e) - Z.pos m * 1000000)) <= 2 ^ (- e)).
Proof.
  unfold scaled6.
  destruct (Z.leb_spec 0 e) as [Hpos | Hneg].
  - split; [ | split; [reflexivity | lia] ].
    assert (0 < 2 ^ e) by (apply Z.pow_pos_nonneg; lia). nia.
  - assert (Hden : 0 < 2 ^ (- e)) by (apply Z.pow_pos_nonneg; lia).
    pose proof (Z.div_mod (Z.pos m * 1000000) (2 ^ (- e)) ltac:(lia)) as Hdm.
    pose proof (Z.mod_pos_bound (Z.pos m * 1000000) (2 ^ (- e)) Hden) as Hmod.
    assert (Hq : 0 <= Z.pos m * 1000000 / 2 ^ (- e))
      by (apply Z.div_pos; lia).
    set (q := Z.pos m * 1000000 / 2 ^ (- e)) in *.
    set (r := (Z.pos m * 1000000) mod 2 ^ (- e)) in *.
    set (den := 2 ^ (- e)) in *.
    destruct (Z.compare_spec (2 * r) den) as [Heq | Hlt | Hgt].
    + destruct (Z.even q);
        (split; [lia | split; [lia | intros _; nia] ]).
    + split; [lia | split; [lia | intros _; nia] ].
    + split; [lia | split; [lia | intros _; nia] ].
Qed.

(** What [%.6f] prints for a finite value: the digits before and after
    the dot denote the nearest integer to a million times the value. *)
Lemma Sprintf_f6_finite (s : bool) (m : positive) (e : Z) :
  exists ip fp,
    Sprintf_f6 (S754_finite s m e) = (sign_text s ++ ip ++ "." ++ fp)%string
    /\ all_digits ip = true
    /\ String.length fp = 6%nat
    /\ all_digits fp = true
    /\ digits_value ip 0 * 1000000 + digits_value fp 0 = scaled6 m e.
Proof.
  exists (utoa (scaled6 m e / 1000000)), (frac6 (scaled6 m e mod 1000000)).
  destruct (scaled6_nearest m e) as [Hpos _].
  split; [reflexivity | ].
  split; [apply utoa_digits | ].
  split; [apply frac6_length | ].
  split; [apply frac6_digits | ].
  rewrite utoa_value by (apply Z.div_pos; lia).
  rewrite frac6_value by (apply Z.mod_pos_bound; lia).
  pose proof (Z.div_mod (scaled6 m e) 1000000 ltac:(lia)). lia.
Qed.

(** A number is printed with exactly six decimals. *)
Lemma Sprintf_f6_six_decimals (x : float64) :
  is_number x = true -> six_decimals (Sprintf_f6 x) = true.
Proof.
  destruct x as [s | s | | s m e]; cbn [is_number Sprintf_f6];
    try discriminate; intros _.
  - destruct s; reflexivity.
  - destruct s; cbn [sign_text append].
    + apply six_decimals_signed;
        auto using utoa_nonempty, utoa_digits, frac6_digits, frac6_length.
    + apply six_decimals_unsigned;
        auto using utoa_nonempty, utoa_digits, frac6_digits, frac6_length.
Qed.

(** The special values are not. *)
Lemma Sprintf_f6_special (x : float64) :
  is_number x = false -> six_decimals (Sprintf_f6 x) = false.
Proof.
  destruct x as [s | s | | s m e]; simpl; try discriminate; intros _;
    try destruct s; reflexivity.
Qed.

(** ** The run of TranscodeSegments *)

Lemma detect_profile_appends env bin cfg (tr : list Event) :
  detect_profile env bin cfg tr
  = (fst (run (detect_profile env bin cfg)),
     tr ++ snd (run (detect_profile env bin cfg))).
Proof.
  unfold detect_profile, detectVideoFormat, run, bind, emit, ret.
  destruct (VideoProfile_ cfg) as [vp | ]; cbn [fst snd].
  2: now rewrite app_nil_r.
  destruct (cmd_Output env _ _) as [output [err | ]]; cbn [fst snd app].
  1: now rewrite <- !app_assoc.
  destruct (json_Unmarshal env output) as [po [err | ]]; cbn [fst snd app].
  1: now rewrite <- !app_assoc.
  destruct (Streams po) as [| first rest]; cbn [fst snd app].
  1: now rewrite <- !app_assoc.
  destruct (is422Format (PixelFormat first)); cbn [fst snd app];
    now rewrite <- !app_assoc.
Qed.

(** What a call with at least two boundary times does, step by step. *)
Lemma TranscodeSegments_run env bin cfg :
  (2 <= List.length (SegmentTimes cfg))%nat ->
  run (TranscodeSegments env bin cfg)
  = let high := fst (run (detect_profile env bin cfg)) in
    let args := args_for cfg high in
    let pre := snd (run (detect_profile env bin cfg))
               ++ [EvCommand bin args; EvLog (start_line bin args);
                   EvStdoutPipe] in
    match cmd_StdoutPipe env with
    | Some err => (None, Some err, pre)
    | None =>
        match cmd_StderrPipe env with
        | Some err => (None, Some err, pre ++ [EvStderrPipe])
        | None =>
            (Some segments, cmd_Start env bin args,
             pre ++ [EvStderrPipe; EvMakeChan segments; EvGo StdoutReader;
                     EvGo StderrReader; EvStart; EvGo ExitWaiter])
        end
    end.
Proof.
  intros Hlen. unfold TranscodeSegments, run.
  assert (Hlt : (Z.of_nat (List.length (SegmentTimes cfg)) <? 2) = false)
    by (apply Z.ltb_ge; lia).
  assert (Hpos : (0 <? Z.of_nat (List.length (SegmentTimes cfg))) = true)
    by (apply Z.ltb_lt; lia).
  rewrite Hlt, Hpos. unfold bind at 1.
  rewrite detect_profile_appends. cbn [app].
  replace (Z.to_nat (Z.of_nat (List.length (SegmentTimes cfg)) - 1))
    with (List.length (SegmentTimes cfg) - 1)%nat by lia.
  generalize (fst (run (detect_profile env bin cfg))).
  generalize (snd (run (detect_profile env bin cfg))).
  intros evs high.
  unfold bind, emit, ret, start_line, args_for.
  cbv zeta.
  destruct (gt_zero (nth 0 (SegmentTimes cfg) f64_zero));
    destruct (VideoProfile_ cfg) as [vp | ];
    destruct (AudioProfile_ cfg) as [ap | ];
    destruct (cmd_StdoutPipe env) as [e1 | ];
    destruct (cmd_StderrPipe env) as [e2 | ];
    cbn [app]; rewrite <- ?app_assoc; reflexivity.
Qed.

(** ** The output pattern is never mistaken for an option *)

(** The last element of a path that ends with the pattern ends with it. *)
Lemma components_pattern (q : string) :
  exists front lq, components (q ++ pattern)%string = front ++ [(lq ++ pattern)%string].
Proof.
  induction q as [| c q [front [lq IH]]].
  - exists [], EmptyString. reflexivity.
  - cbn [append components]. rewrite IH.
    destruct (Ascii.eqb c "/"%char).
    + exists (EmptyString :: front), lq. reflexivity.
    + destruct front as [| h t]; cbn [app].
      * exists [], (String c lq). reflexivity.
      * exists (String c h :: t), lq. reflexivity.
Qed.

Lemma eqb_short (a b : string) :
  (String.length b < String.length a)%nat -> String.eqb a b = false.
Proof.
  intros Hlen. apply String.eqb_neq. intros ->. lia.
Qed.

Lemma clean_step_pattern rooted out lq :
  clean_step rooted out (lq ++ pattern)%string = (lq ++ pattern)%string :: out.
Proof.
  unfold clean_step.
  assert (Hlen : (8 <= String.length (lq ++ pattern)%string)%nat)
    by (rewrite length_append; cbn [pattern String.length]; lia).
  rewrite !eqb_short by (cbn [String.length]; lia). reflexivity.
Qed.

Lemma concat_last_long (sep x : string) (l : list string) :
  (String.length x <= String.length (String.concat sep (l ++ [x])))%nat.
Proof.
  induction l as [| a l IH]; cbn [app String.concat]; [lia | ].
  destruct (l ++ [x]) as [| b r] eqn:Hl.
  - destruct l; discriminate Hl.
  - rewrite !length_append. lia.
Qed.

Lemma path_Clean_pattern (q : string) :
  (8 <= String.length (path_Clean (q ++ pattern)))%nat.
Proof.
  destruct (components_pattern q) as [front [lq Hc]].
  assert (Hlen : (8 <= String.length (lq ++ pattern)%string)%nat)
    by (rewrite length_append; cbn [pattern String.length]; lia).
  unfold path_Clean.
  destruct (q ++ pattern)%string as [| c0 p] eqn:Hp.
  - destruct q; discriminate Hp.
  - rewrite Hc, fold_left_app. cbn [fold_left].
    rewrite clean_step_pattern. cbn [rev].
    pose proof (concat_last_long "/"
                  (lq ++ pattern)
                  (rev (fold_left (clean_step (Ascii.eqb c0 "/"%char)) front [])))
      as Hbody.
    destruct (Ascii.eqb c0 "/"%char); [cbn [String.length]; lia | ].
    rewrite eqb_short by (cbn [String.length]; lia). lia.
Qed.

Lemma path_Join_pattern (dir prefix : string) :
  (8 <= String.length (path_Join dir (prefix ++ pattern)))%nat.
Proof.
  unfold path_Join.
  destruct (String.eqb dir "").
  - rewrite eqb_short
      by (rewrite length_append; cbn [pattern String.length]; lia).
    apply path_Clean_pattern.
  - rewrite <- !append_assoc. apply path_Clean_pattern.
Qed.

Lemma output_not_option cfg (name : string) :
  (String.length name < 8)%nat ->
  String.eqb (path_Join (OutputDirPath cfg) (SegmentPrefix cfg ++ "-%05d.ts"))
             name = false.
Proof.
  intros Hn. apply eqb_short.
  pose proof (path_Join_pattern (OutputDirPath cfg) (SegmentPrefix cfg)) as H.
  unfold pattern in H. lia.
Qed.

(** ** The argument vector, read as the encoder reads it *)

Ltac read_args :=
  cbn [items takes_value existsb value_options option_values has_option
       before_input String.eqb Ascii.eqb Bool.eqb app orb andb].

Lemma items_args_for cfg high :
  items (args_for cfg high)
  = let startAt := nth 0 (SegmentTimes cfg) f64_zero in
    let endAt :=
      nth (List.length (SegmentTimes cfg) - 1) (SegmentTimes cfg) f64_zero in
    let times := strings_Join (tl (map Sprintf_f6 (SegmentTimes cfg))) "," in
    WithValue "-loglevel" "warning"
    :: (if gt_zero startAt then [WithValue "-ss" (Sprintf_f6 startAt)] else [])
    ++ [WithValue "-i" (InputFilePath cfg);
        WithValue "-to" (Sprintf_f6 endAt);
        Alone "-copyts";
        WithValue "-force_key_frames" times;
        Alone "-sn"]
    ++ match VideoProfile_ cfg with
       | Some profile => video_items profile high
       | None => []
       end
    ++ match AudioProfile_ cfg with
       | Some profile => audio_items profile
       | None => []
       end
    ++ [WithValue "-f" "segment";
        WithValue "-segment_time_delta" "0.2";
        WithValue "-segment_format" "mpegts";
        WithValue "-segment_times" times;
        WithValue "-segment_start_number" (itoa (SegmentOffset cfg));
        WithValue "-segment_list_type" "flat";
        WithValue "-segment_list" "pipe:1";
        Alone (path_Join (OutputDirPath cfg)
                         (SegmentPrefix cfg ++ "-%05d.ts"))].
Proof.
  unfold args_for, video_items, audio_items. cbv zeta.
  destruct (gt_zero (nth 0 (SegmentTimes cfg) f64_zero));
    destruct (VideoProfile_ cfg) as [vp | ];
    destruct (AudioProfile_ cfg) as [ap | ];
    read_args;
    match goal with
    | |- context [if ?b then [Alone _] else _] => destruct b
    end; reflexivity.
Qed.

Lemma built_args_app (l1 l2 : list Event) :
  built_args (l1 ++ l2)
  = match built_args l1 with Some a => Some a | None => built_args l2 end.
Proof.
  induction l1 as [| e l1 IH]; cbn [app built_args]; [reflexivity | ].
  destruct e; auto.
Qed.

Lemma detect_profile_no_command env bin cfg :
  built_args (snd (run (detect_profile env bin cfg))) = None.
Proof.
  unfold detect_profile, detectVideoFormat, run, bind, emit, ret.
  destruct (VideoProfile_ cfg) as [vp | ]; [ | reflexivity].
  destruct (cmd_Output env _ _) as [output [err | ]]; [reflexivity | ].
  destruct (json_Unmarshal env output) as [po [err | ]]; [reflexivity | ].
  destruct (Streams po) as [| first rest]; [reflexivity | ].
  destruct (is422Format (PixelFormat first)); reflexivity.
Qed.

(** A call with at least two boundary times builds [args_for]. *)
Lemma built_args_TranscodeSegments env bin cfg :
  (2 <= List.length (SegmentTimes cfg))%nat ->
  built_args (snd (run (TranscodeSegments env bin cfg)))
  = Some (args_for cfg (fst (run (detect_profile env bin cfg)))).
Proof.
  intros Hlen. rewrite (TranscodeSegments_run env bin cfg Hlen). cbv zeta.
  destruct (cmd_StdoutPipe env) as [e1 | ];
    [ | destruct (cmd_StderrPipe env) as [e2 | ] ];
    cbn [snd]; rewrite ?built_args_app, detect_profile_no_command;
    reflexivity.
Qed.

Lemma tl_map {A B : Type} (f : A -> B) (l : list A) :
  tl (map f l) = map f (tl l).
Proof. destruct l; reflexivity. Qed.

Lemma forallb_six_decimals (l : list float64) :
  forallb (fun t => implb (is_number t) (six_decimals (Sprintf_f6 t))) l = true.
Proof.
  induction l as [| t l IH]; cbn [forallb]; [reflexivity | ].
  rewrite IH, andb_true_r.
  destruct (is_number t) eqn:Ht; [ | reflexivity].
  cbn [implb]. now apply Sprintf_f6_six_decimals.
Qed.

(** C2. For every configuration with at least two boundary times, the
    argument vector built by TranscodeSegments gives -force_key_frames and
    -segment_times one value each, and the two values are the same string:
    the boundary times but the first, each printed with [%.6f], joined by
    commas.  Each of them that is a number is printed with exactly six
    digits after the dot. *)
Theorem keyframes_and_splits_agree env bin cfg :
  (2 <= List.length (SegmentTimes cfg))%nat ->
  exists args,
    built_args (snd (run (TranscodeSegments env bin cfg))) = Some args /\
    let times := strings_Join (map Sprintf_f6 (tl (SegmentTimes cfg))) "," in
    option_values "-force_key_frames" (items args) = [times] /\
    option_values "-segment_times" (items args) = [times] /\
    forallb (fun t => implb (is_number t) (six_decimals (Sprintf_f6 t)))
            (tl (SegmentTimes cfg)) = true.
Proof.
  intros Hlen. eexists. split; [now apply built_args_TranscodeSegments | ].
  cbv zeta. rewrite items_args_for. cbv zeta. rewrite tl_map.
  unfold video_items, audio_items.
  split; [ | split; [ | apply forallb_six_decimals ] ];
    destruct (gt_zero (nth 0 (SegmentTimes cfg) f64_zero));
    destruct (VideoProfile_ cfg) as [vp | ];
    destruct (AudioProfile_ cfg) as [ap | ];
    read_args; reflexivity.
Qed.

(** ** The seek flag *)

Lemma Sprintf_f6_length (x : float64) :
  (3 <= String.length (Sprintf_f6 x))%nat.
Proof.
  destruct x as [s | s | | s m e]; cbn [Sprintf_f6].
  - destruct s; cbn; lia.
  - destruct s; cbn; lia.
  - cbn; lia.
  - rewrite !length_append, frac6_length. cbn [String.length]. lia.
Qed.

Lemma Sprintf_f6_not_seek (x : float64) : Sprintf_f6 x <> "-ss"%string.
Proof.
  destruct x as [s | s | | s m e]; cbn [Sprintf_f6];
    try (destruct s; discriminate); try discriminate.
  intros Heq.
  assert (Hlen : String.length
                   (sign_text s ++ utoa (scaled6 m e / 1000000) ++ "."
                    ++ frac6 (scaled6 m e mod 1000000))%string = 3%nat)
    by now rewrite Heq.
  rewrite !length_append, frac6_length in Hlen.
  cbn [String.length] in Hlen. lia.
Qed.

Lemma concat_not_seek (l : list float64) :
  strings_Join (map Sprintf_f6 l) "," <> "-ss"%string.
Proof.
  unfold strings_Join.
  destruct l as [| x [| y l]]; cbn [map String.concat].
  - discriminate.
  - apply Sprintf_f6_not_seek.
  - intros Heq.
    match type of Heq with
    | ?a = _ => assert (Hlen : String.length a = 3%nat) by now rewrite Heq
    end.
    rewrite !length_append in Hlen. cbn [String.length] in Hlen.
    pose proof (Sprintf_f6_length x). lia.
Qed.

Lemma append_k_not_seek (a : string) : (a ++ "k")%string <> "-ss"%string.
Proof.
  destruct a as [| c1 [| c2 [| c3 [| c4 a]]]]; cbn [append]; discriminate.
Qed.

Lemma utoa_not_seek (n : Z) : utoa n <> "-ss"%string.
Proof.
  intros Heq. pose proof (utoa_digits n) as Hd. rewrite Heq in Hd.
  discriminate Hd.
Qed.

Lemma itoa_not_seek (n : Z) : itoa n <> "-ss"%string.
Proof.
  unfold itoa. destruct (n <? 0); [ | apply utoa_not_seek].
  intros Heq. injection Heq as Heq.
  pose proof (utoa_digits (- n)) as Hd. rewrite Heq in Hd. discriminate Hd.
Qed.

Lemma scale_filter_not_seek (p : VideoProfile) : scale_filter p <> "-ss"%string.
Proof.
  unfold scale_filter. destruct (Width p >=? Height p); cbn [append]; discriminate.
Qed.

Lemma output_not_seek cfg :
  path_Join (OutputDirPath cfg) (SegmentPrefix cfg ++ "-%05d.ts") <> "-ss"%string.
Proof.
  apply String.eqb_neq, output_not_option. cbn [String.length]. lia.
Qed.

(** The string -ss is an argument only as the seek flag, or as the name of
    the input file. *)
Lemma seek_string_in_args cfg high :
  In "-ss"%string (args_for cfg high) ->
  gt_zero (nth 0 (SegmentTimes cfg) f64_zero) = true
  \/ InputFilePath cfg = "-ss"%string.
Proof.
  unfold args_for. cbv zeta. rewrite tl_map.
  pose proof (Sprintf_f6_not_seek
                (nth (List.length (SegmentTimes cfg) - 1) (SegmentTimes cfg)
                     f64_zero)) as Hto.
  pose proof (concat_not_seek (tl (SegmentTimes cfg))) as Htimes.
  pose proof (itoa_not_seek (SegmentOffset cfg)) as Hoff.
  pose proof (output_not_seek cfg) as Hout.
  destruct (gt_zero (nth 0 (SegmentTimes cfg) f64_zero)); [now left | ].
  destruct (VideoProfile_ cfg) as [vp | ];
    destruct (AudioProfile_ cfg) as [ap | ];
    try pose proof (scale_filter_not_seek vp) as Hscale;
    try pose proof (append_k_not_seek (itoa (VBitrate vp))) as Hvb;
    try pose proof (append_k_not_seek (itoa (ABitrate ap))) as Hab;
    cbn [app In]; intros Hin;
    repeat (destruct Hin as [Hin | Hin];
            [ first [ discriminate Hin
                    | now right
                    | congruence
                    | destruct high; discriminate Hin ] | ]);
    contradiction.
Qed.

(** C3. For every configuration with at least two boundary times, the
    built argument vector has the seek flag -ss exactly when the first
    boundary time is greater than zero.  When it has, the flag comes once,
    with the first boundary printed with [%.6f] as its value, before the
    input flag -i.  When the first boundary is not greater than zero there
    is no seek flag, and the string -ss is not an argument at all unless it
    is the name of the input file. *)
Theorem seek_iff_positive_start env bin cfg :
  (2 <= List.length (SegmentTimes cfg))%nat ->
  exists args,
    built_args (snd (run (TranscodeSegments env bin cfg))) = Some args /\
    let first := nth 0 (SegmentTimes cfg) f64_zero in
    has_option "-ss" (items args) = gt_zero first /\
    (gt_zero first = true ->
       option_values "-ss" (items args) = [Sprintf_f6 first] /\
       has_option "-ss" (before_input (items args)) = true /\
       exists rest,
         args = "-loglevel"%string :: "warning"%string :: "-ss"%string
                :: Sprintf_f6 first :: "-i"%string :: rest) /\
    (gt_zero first = false ->
       option_values "-ss" (items args) = [] /\
       (In "-ss"%string args -> InputFilePath cfg = "-ss"%string)).
Proof.
  intros Hlen. eexists. split; [now apply built_args_TranscodeSegments | ].
  cbv zeta.
  pose proof (output_not_option cfg "-ss") as Hout.
  split; [ | split ].
  - rewrite items_args_for. cbv zeta. unfold video_items, audio_items.
    destruct (gt_zero (nth 0 (SegmentTimes cfg) f64_zero));
      destruct (VideoProfile_ cfg) as [vp | ];
      destruct (AudioProfile_ cfg) as [ap | ];
      read_args; rewrite ?Hout by (cbn [String.length]; lia); reflexivity.
  - intros Hpos. split; [ | split ].
    + rewrite items_args_for. cbv zeta. unfold video_items, audio_items.
      rewrite Hpos.
      destruct (VideoProfile_ cfg) as [vp | ];
        destruct (AudioProfile_ cfg) as [ap | ];
        read_args; reflexivity.
    + rewrite items_args_for. cbv zeta. rewrite Hpos. reflexivity.
    + unfold args_for. cbv zeta. rewrite Hpos. cbn [app].
      eexists. reflexivity.
  - intros Hzero. split.
    + rewrite items_args_for. cbv zeta. unfold video_items, audio_items.
      rewrite Hzero.
      destruct (VideoProfile_ cfg) as [vp | ];
        destruct (AudioProfile_ cfg) as [ap | ];
        read_args; reflexivity.
    + intros Hin. apply seek_string_in_args in Hin.
      destruct Hin as [Hin | Hin]; [congruence | exact Hin].
Qed.

(** ** The probe *)

Lemma detectVideoFormat_trace env b i :
  snd (run (detectVideoFormat env b i)) = [EvOutput b (probe_args i)].
Proof.
  unfold detectVideoFormat, run, bind, emit, ret.
  destruct (cmd_Output env _ _) as [output [err | ]]; [reflexivity | ].
  destruct (json_Unmarshal env output) as [po [err | ]]; [reflexivity | ].
  destruct (Streams po); reflexivity.
Qed.

(** The three ways in which the probe fails, and no other. *)
Lemma detectVideoFormat_error env b i :
  let output := cmd_Output env b (probe_args i) in
  let parsed := json_Unmarshal env (fst output) in
  snd (fst (run (detectVideoFormat env b i))) <> None
  <-> snd output <> None
      \/ snd parsed <> None
      \/ Streams (fst parsed) = [].
Proof.
  cbv zeta. unfold detectVideoFormat, run, bind, emit, ret.
  destruct (cmd_Output env _ _) as [output [err | ]]; cbn [fst snd].
  - split; [left | ]; discriminate.
  - destruct (json_Unmarshal env output) as [po [err | ]]; cbn [fst snd].
    + split; [right; left | ]; discriminate.
    + destruct (Streams po) as [| first rest]; cbn [fst snd].
      * split; [now right; right | discriminate].
      * split; [congruence | ].
        intros [H | [H | H]]; congruence.
Qed.

Lemma detect_profile_run env bin cfg :
  run (detect_profile env bin cfg)
  = match VideoProfile_ cfg with
    | None => (false, [])
    | Some _ =>
        let r := fst (run (detectVideoFormat env (ffprobe_of bin)
                                             (InputFilePath cfg))) in
        let probe := EvOutput (ffprobe_of bin) (probe_args (InputFilePath cfg)) in
        match snd r with
        | Some e =>
            (false,
             [probe;
              EvLog ("Warning: Could not detect video format, using default profile: "
                     ++ Error e)])
        | None =>
            (is422Format (fst r),
             [probe;
              EvLog ("Detected pixel format: " ++ fst r);
              EvLog (if is422Format (fst r)
                     then "Detected 4:2:2 format (" ++ fst r
                          ++ "), using high422 profile"
                     else "Using default profile for format: " ++ fst r)])
        end
    end.
Proof.
  unfold detect_profile, ffprobe_of.
  destruct (VideoProfile_ cfg) as [vp | ]; [ | reflexivity].
  unfold run at 1, bind at 1.
  pose proof (detectVideoFormat_trace env
                (strings_Replace1 bin "ffmpeg" "ffprobe") (InputFilePath cfg))
    as Htr.
  unfold run in Htr |- *.
  destruct (detectVideoFormat env _ _ []) as [[pf err] tr].
  cbn [fst snd] in Htr |- *. subst tr.
  destruct err as [e | ]; [reflexivity | ].
  unfold bind, emit, ret. cbn [app].
  destruct (is422Format pf); reflexivity.
Qed.

(** ** strings.Replace with a count of one *)

Lemma strip_spec (old s rest : string) :
  strip old s = Some rest <-> s = (old ++ rest)%string.
Proof.
  revert s. induction old as [| a old IH]; intros s; cbn [strip append].
  - split; congruence.
  - destruct s as [| b s]; [split; discriminate | ].
    destruct (Ascii.eqb_spec a b) as [-> | Hne].
    + rewrite IH. split; congruence.
    + split; [discriminate | congruence].
Qed.

Lemma strip_none (old s : string) :
  strip old s = None -> forall post, s <> (old ++ post)%string.
Proof.
  intros Hnone post Heq. apply strip_spec in Heq. congruence.
Qed.

Lemma Replace1_absent (s old new : string) :
  ~ occurs old s -> strings_Replace1 s old new = s.
Proof.
  induction s as [| c s IH]; intros Habs.
  - cbn [strings_Replace1]. destruct (strip old "") as [rest | ] eqn:Hs;
      [ | reflexivity].
    apply strip_spec in Hs. exfalso. apply Habs. exists EmptyString, rest.
    exact Hs.
  - cbn [strings_Replace1]. destruct (strip old (String c s)) as [rest | ] eqn:Hs.
    + apply strip_spec in Hs. exfalso. apply Habs.
      exists EmptyString, rest. exact Hs.
    + f_equal. apply IH. intros [pre [post Heq]]. apply Habs.
      exists (String c pre), post. cbn [append]. now rewrite Heq.
Qed.

Lemma Replace1_leftmost (old new post : string) :
  forall pre,
    (forall pre' post', (pre ++ old ++ post)%string = (pre' ++ old ++ post')%string ->
                        (String.length pre <= String.length pre')%nat) ->
    strings_Replace1 (pre ++ old ++ post) old new = (pre ++ new ++ post)%string.
Proof.
  induction pre as [| c pre IH]; intros Hleft.
  - cbn [append]. assert (Hs : strip old (old ++ post) = Some post)
      by now apply strip_spec.
    destruct (old ++ post)%string; cbn [strings_Replace1]; now rewrite Hs.
  - cbn [append strings_Replace1].
    destruct (strip old (String c (pre ++ old ++ post))) as [rest | ] eqn:Hs.
    + apply strip_spec in Hs.
      specialize (Hleft EmptyString rest Hs). cbn [String.length] in Hleft. lia.
    + f_equal. apply IH. intros pre' post' Heq.
      specialize (Hleft (String c pre') post'). cbn [append String.length] in Hleft.
      rewrite Heq in Hleft. specialize (Hleft eq_refl). lia.
Qed.

(** An occurrence has a leftmost one. *)
Lemma occurs_leftmost (old : string) :
  forall s, occurs old s ->
    exists pre post,
      s = (pre ++ old ++ post)%string /\
      forall pre' post', s = (pre' ++ old ++ post')%string ->
                         (String.length pre <= String.length pre')%nat.
Proof.
  induction s as [| c s IH]; intros Hocc.
  - destruct Hocc as [pre [post Heq]]. destruct pre as [| x pre]; [ | discriminate Heq].
    exists EmptyString, post. split; [exact Heq | intros; cbn [String.length]; lia].
  - destruct (strip old (String c s)) as [rest | ] eqn:Hs.
    + apply strip_spec in Hs. exists EmptyString, rest.
      split; [exact Hs | intros; cbn [String.length]; lia].
    + destruct Hocc as [pre [post Heq]].
      destruct pre as [| x pre].
      * exfalso. exact (strip_none _ _ Hs post Heq).
      * cbn [append] in Heq. injection Heq as -> Heq.
        destruct (IH (ex_intro _ pre (ex_intro _ post Heq)))
          as [pre0 [post0 [Heq0 Hleft0]]].
        exists (String x pre0), post0. split; [cbn [append]; now rewrite <- Heq0 | ].
        intros pre' post' Heq'. destruct pre' as [| y pre'].
        -- exfalso. exact (strip_none _ _ Hs post' Heq').
        -- cbn [append] in Heq'. injection Heq' as _ Heq'.
           specialize (Hleft0 pre' post' Heq'). cbn [String.length]. lia.
Qed.

(** [strings.Replace(s, old, new, 1)] replaces the first occurrence. *)
Lemma Replace1_first_replaced (s old new : string) :
  first_replaced s old new (strings_Replace1 s old new).
Proof.
  destruct (strip old s) as [rest | ] eqn:Hhead.
  - left. apply strip_spec in Hhead. exists EmptyString, rest.
    split; [exact Hhead | split; [intros; cbn [String.length]; lia | ] ].
    subst s. apply (Replace1_leftmost old new rest EmptyString).
    intros; cbn [String.length]; lia.
  - assert (Hdec : occurs old s \/ ~ occurs old s).
    { clear Hhead. induction s as [| c s IH].
      - destruct (strip old "") as [rest | ] eqn:Hs.
        + left. exists EmptyString, rest. apply strip_spec in Hs. exact Hs.
        + right. intros [pre [post Heq]]. destruct pre; [ | discriminate Heq].
          exact (strip_none _ _ Hs post Heq).
      - destruct (strip old (String c s)) as [rest | ] eqn:Hs.
        + left. exists EmptyString, rest. apply strip_spec in Hs. exact Hs.
        + destruct IH as [[pre [post Heq]] | Habs].
          * left. exists (String c pre), post. cbn [append]. now rewrite Heq.
          * right. intros [pre [post Heq]]. destruct pre as [| x pre].
            -- exact (strip_none _ _ Hs post Heq).
            -- cbn [append] in Heq. injection Heq as _ Heq.
               apply Habs. now exists pre, post. }
    destruct Hdec as [Hocc | Habs].
    + left. destruct (occurs_leftmost old s Hocc) as [pre [post [Heq Hleft]]].
      exists pre, post. split; [exact Heq | split; [exact Hleft | ] ].
      subst s. now apply Replace1_leftmost.
    + right. split; [exact Habs | now apply Replace1_absent].
Qed.

(** ** The profile classifier *)

Lemma range_422_In (pf : string) (formats : list string) :
  range_422 pf formats = true <-> In pf formats.
Proof.
  induction formats as [| f formats IH]; cbn [range_422 In].
  - split; [discriminate | contradiction].
  - destruct (String.eqb_spec pf f) as [-> | Hne].
    + split; auto.
    + rewrite IH. split; [auto | intros [H | H]; congruence].
Qed.

Lemma is422Format_In (pf : string) : is422Format pf = true <-> In pf format422.
Proof. apply range_422_In. Qed.

Lemma profile_value cfg vp high :
  VideoProfile_ cfg = Some vp ->
  option_values "-profile:v" (items (args_for cfg high))
  = [if high then "high422"%string else "high"%string].
Proof.
  intros Hvp. rewrite items_args_for. cbv zeta. rewrite Hvp.
  unfold video_items, audio_items.
  destruct (gt_zero (nth 0 (SegmentTimes cfg) f64_zero));
    destruct (AudioProfile_ cfg) as [ap | ];
    read_args; reflexivity.
Qed.

(** C6. The classifier is membership in the enumerated set and nothing
    else: true on every format of the set, false on every other string,
    the empty one included.  When the probe reports a format, the value
    given to -profile:v is high422 for a format of the set and high for
    any other. *)
Theorem profile_follows_classifier :
  (forall pf, (In pf format422 -> is422Format pf = true)
              /\ (~ In pf format422 -> is422Format pf = false))
  /\ is422Format "" = false
  /\ forall env bin cfg vp pf,
       VideoProfile_ cfg = Some vp ->
       (2 <= List.length (SegmentTimes cfg))%nat ->
       fst (run (detectVideoFormat env (ffprobe_of bin) (InputFilePath cfg)))
       = (pf, None) ->
       exists args,
         built_args (snd (run (TranscodeSegments env bin cfg))) = Some args
         /\ (In pf format422 ->
             option_values "-profile:v" (items args) = ["high422"%string])
         /\ (~ In pf format422 ->
             option_values "-profile:v" (items args) = ["high"%string]).
Proof.
  split; [ | split ].
  - intros pf. split; intros H.
    + now apply is422Format_In.
    + destruct (is422Format pf) eqn:Hpf; [ | reflexivity].
      apply is422Format_In in Hpf. contradiction.
  - reflexivity.
  - intros env bin cfg vp pf Hvp Hlen Hprobe.
    eexists. split; [now apply built_args_TranscodeSegments | ].
    rewrite (profile_value cfg vp _ Hvp), detect_profile_run, Hvp.
    cbv zeta. rewrite Hprobe. cbn [fst snd].
    split; intros Hin.
    + apply is422Format_In in Hin. now rewrite Hin.
    + destruct (is422Format pf) eqn:Hpf; [ | reflexivity].
      apply is422Format_In in Hpf. contradiction.
Qed.

(** ** A probe that fails *)

Lemma filter_not_log_probe env bin cfg :
  VideoProfile_ cfg = Some (match VideoProfile_ cfg with
                            | Some vp => vp
                            | None => {| Width := 0; Height := 0; VBitrate := 0 |}
                            end) ->
  filter not_log (snd (run (detect_profile env bin cfg)))
  = [EvOutput (ffprobe_of bin) (probe_args (InputFilePath cfg))].
Proof.
  intros Hvp. rewrite detect_profile_run, Hvp. cbv zeta.
  destruct (snd (fst (run (detectVideoFormat env (ffprobe_of bin)
                                             (InputFilePath cfg)))));
    reflexivity.
Qed.

(** C7. The probe fails in exactly three ways: the inspection tool cannot
    be run, its output cannot be parsed, or it reports no video stream.
    Whenever it fails, TranscodeSegments logs the warning, gives
    -profile:v the value high, and goes on: the command is built with
    these arguments and its stdout pipe is asked for; the error returned,
    if any, is that of a pipe or of cmd.Start, never that of the probe;
    and when both pipes are set up the channel is made, the readers, the
    process and the exit waiter are started in the order of the source,
    and the channel is returned with the result of cmd.Start.  What is
    returned, and the calls made, are those of a world that differs only
    in that the probe reports a format outside the 4:2:2 set. *)
Theorem probe_failure_is_not_fatal :
  (forall env b i,
      snd (fst (run (detectVideoFormat env b i))) <> None
      <-> snd (cmd_Output env b (probe_args i)) <> None
          \/ snd (json_Unmarshal env (fst (cmd_Output env b (probe_args i))))
             <> None
          \/ Streams (fst (json_Unmarshal env
                             (fst (cmd_Output env b (probe_args i))))) = [])
  /\ forall env bin cfg vp e,
       VideoProfile_ cfg = Some vp ->
       (2 <= List.length (SegmentTimes cfg))%nat ->
       snd (fst (run (detectVideoFormat env (ffprobe_of bin)
                                        (InputFilePath cfg)))) = Some e ->
       let r := run (TranscodeSegments env bin cfg) in
       In (EvLog ("Warning: Could not detect video format, using default profile: "
                  ++ Error e)) (snd r)
       /\ (exists args,
              built_args (snd r) = Some args
              /\ option_values "-profile:v" (items args) = ["high"%string]
              /\ In (EvCommand bin args) (snd r)
              /\ In EvStdoutPipe (snd r)
              /\ snd (fst r)
                 = match cmd_StdoutPipe env with
                   | Some err => Some err
                   | None => match cmd_StderrPipe env with
                             | Some err => Some err
                             | None => cmd_Start env bin args
                             end
                   end
              /\ (cmd_StdoutPipe env = None ->
                  cmd_StderrPipe env = None ->
                  fst r = (Some segments, cmd_Start env bin args)
                  /\ exists before,
                       snd r = before ++ EvCommand bin args
                                         :: EvLog (start_line bin args)
                                         :: readings.launch))
       /\ forall env' pf,
            cmd_StdoutPipe env' = cmd_StdoutPipe env ->
            cmd_StderrPipe env' = cmd_StderrPipe env ->
            (forall b a, cmd_Start env' b a = cmd_Start env b a) ->
            fst (run (detectVideoFormat env' (ffprobe_of bin)
                                        (InputFilePath cfg))) = (pf, None) ->
            is422Format pf = false ->
            let r' := run (TranscodeSegments env' bin cfg) in
            fst r' = fst r
            /\ built_args (snd r') = built_args (snd r)
            /\ filter not_log (snd r') = filter not_log (snd r).
Proof.
  split; [exact detectVideoFormat_error | ].
  intros env bin cfg vp e Hvp Hlen Hfail. cbv zeta.
  assert (Hhigh : fst (run (detect_profile env bin cfg)) = false)
    by (rewrite detect_profile_run, Hvp; cbv zeta; now rewrite Hfail).
  split; [ | split ].
  - rewrite (TranscodeSegments_run env bin cfg Hlen). cbv zeta.
    assert (Hin : In (EvLog ("Warning: Could not detect video format, using default profile: "
                             ++ Error e))
                     (snd (run (detect_profile env bin cfg))))
      by (rewrite detect_profile_run, Hvp; cbv zeta; rewrite Hfail;
          cbn [snd In]; auto).
    destruct (cmd_StdoutPipe env) as [e1 | ];
      [ | destruct (cmd_StderrPipe env) as [e2 | ] ];
      cbn [snd]; rewrite ?in_app_iff; auto.
  - exists (args_for cfg (fst (run (detect_profile env bin cfg)))).
    split; [now apply built_args_TranscodeSegments | ].
    split; [now rewrite (profile_value cfg vp _ Hvp), Hhigh | ].
    rewrite (TranscodeSegments_run env bin cfg Hlen). cbv zeta.
    destruct (cmd_StdoutPipe env) as [e1 | ];
      [ | destruct (cmd_StderrPipe env) as [e2 | ] ];
      cbn [fst snd]; rewrite ?in_app_iff; cbn [In];
      (split; [tauto | split; [tauto | split; [reflexivity | ] ] ]);
      intros Hso Hse; try discriminate.
    split; [reflexivity | ].
    exists (snd (run (detect_profile env bin cfg))).
    rewrite <- app_assoc. reflexivity.
  - intros env' pf Hso Hse Hstart Hok Hstd.
    assert (Hhigh' : fst (run (detect_profile env' bin cfg)) = false)
      by (rewrite detect_profile_run, Hvp; cbv zeta; now rewrite Hok).
    assert (Hvp' : VideoProfile_ cfg
                   = Some (match VideoProfile_ cfg with
                           | Some vp => vp
                           | None => {| Width := 0; Height := 0; VBitrate := 0 |}
                           end))
      by now rewrite Hvp.
    rewrite !built_args_TranscodeSegments by exact Hlen.
    rewrite (TranscodeSegments_run env bin cfg Hlen),
            (TranscodeSegments_run env' bin cfg Hlen).
    cbv zeta. rewrite Hhigh, Hhigh', Hso, Hse, Hstart.
    destruct (cmd_StdoutPipe env) as [e1 | ];
      [ | destruct (cmd_StderrPipe env) as [e2 | ] ];
      cbn [fst snd]; (split; [reflexivity | split; [reflexivity | ] ]);
      unfold not_log; rewrite !filter_app;
      fold not_log; rewrite !filter_not_log_probe by exact Hvp'; reflexivity.
Qed.

(** ** The binary that is probed *)

Lemma probed_app (l1 l2 : list Event) :
  probed (l1 ++ l2) = probed l1 ++ probed l2.
Proof.
  induction l1 as [| e l1 IH]; cbn [app probed]; [reflexivity | ].
  destruct e; cbn [app]; now rewrite ?IH.
Qed.

Lemma probed_detect_profile env bin cfg :
  probed (snd (run (detect_profile env bin cfg)))
  = match VideoProfile_ cfg with
    | Some _ => [ffprobe_of bin]
    | None => []
    end.
Proof.
  rewrite detect_profile_run.
  destruct (VideoProfile_ cfg) as [vp | ]; [ | reflexivity].
  cbv zeta.
  destruct (snd (fst (run (detectVideoFormat env (ffprobe_of bin)
                                             (InputFilePath cfg)))));
    reflexivity.
Qed.

Lemma probed_TranscodeSegments env bin cfg :
  probed (snd (run (TranscodeSegments env bin cfg)))
  = if (List.length (SegmentTimes cfg) <? 2)%nat then []
    else match VideoProfile_ cfg with
         | Some _ => [ffprobe_of bin]
         | None => []
         end.
Proof.
  destruct (Nat.ltb_spec (List.length (SegmentTimes cfg)) 2) as [Hlt | Hge].
  - unfold TranscodeSegments, run.
    replace (Z.of_nat (List.length (SegmentTimes cfg)) <? 2) with true
      by (symmetry; apply Z.ltb_lt; lia).
    reflexivity.
  - rewrite (TranscodeSegments_run env bin cfg Hge). cbv zeta.
    destruct (cmd_StdoutPipe env) as [e1 | ];
      [ | destruct (cmd_StderrPipe env) as [e2 | ] ];
      cbn [snd]; rewrite !probed_app, probed_detect_profile;
      cbn [probed]; now rewrite !app_nil_r.
Qed.

(** C10. Whatever binary TranscodeSegments runs for probing is the encoder
    binary path with the first occurrence of ffmpeg replaced by ffprobe,
    the path itself when ffmpeg does not occur in it.  With a video profile
    (and at least two boundary times) the probe is run once; without a
    video profile it is not run at all. *)
Theorem probe_binary_is_renamed_encoder env bin cfg :
  let tr := snd (run (TranscodeSegments env bin cfg)) in
  (forall b, In b (probed tr) ->
             first_replaced bin "ffmpeg" "ffprobe" b
             /\ (~ occurs "ffmpeg" bin -> b = bin))
  /\ (VideoProfile_ cfg = None -> probed tr = [])
  /\ (forall vp, VideoProfile_ cfg = Some vp ->
                 (2 <= List.length (SegmentTimes cfg))%nat ->
                 exists b, probed tr = [b]).
Proof.
  cbv zeta. rewrite probed_TranscodeSegments.
  split; [ | split ].
  - intros b Hin.
    assert (Hb : b = ffprobe_of bin).
    { destruct (List.length (SegmentTimes cfg) <? 2)%nat; [contradiction | ].
      destruct (VideoProfile_ cfg); [ | contradiction].
      destruct Hin as [Hin | []]. now symmetry. }
    subst b. split; [apply Replace1_first_replaced | ].
    intros Habs. now apply Replace1_absent.
  - intros ->. now destruct (List.length (SegmentTimes cfg) <? 2)%nat.
  - intros vp -> Hlen.
    replace (List.length (SegmentTimes cfg) <? 2)%nat with false
      by (symmetry; apply Nat.ltb_ge; lia).
    eexists. reflexivity.
Qed.

(** ** What TranscodeSegments returns *)

Lemma config_error env bin cfg :
  (List.length (SegmentTimes cfg) < 2)%nat ->
  run (TranscodeSegments env bin cfg)
  = (None, Some (errorString "minimum 2 segment times needed"), []).
Proof.
  intros Hlt. unfold TranscodeSegments, run.
  replace (Z.of_nat (List.length (SegmentTimes cfg)) <? 2) with true
    by (symmetry; apply Z.ltb_lt; lia).
  reflexivity.
Qed.

Lemma no_chan_in_probe env bin cfg :
  existsb is_make_chan (snd (run (detect_profile env bin cfg))) = false.
Proof.
  rewrite detect_profile_run.
  destruct (VideoProfile_ cfg) as [vp | ]; [ | reflexivity].
  cbv zeta.
  destruct (snd (fst (run (detectVideoFormat env (ffprobe_of bin)
                                             (InputFilePath cfg)))));
    reflexivity.
Qed.

(** A pipe that cannot be set up: the error, no channel, none made. *)
Lemma pipe_error env bin cfg e :
  (2 <= List.length (SegmentTimes cfg))%nat ->
  cmd_StdoutPipe env = Some e
  \/ (cmd_StdoutPipe env = None /\ cmd_StderrPipe env = Some e) ->
  fst (run (TranscodeSegments env bin cfg)) = (None, Some e)
  /\ existsb is_make_chan (snd (run (TranscodeSegments env bin cfg))) = false.
Proof.
  intros Hlen Hpipe. rewrite (TranscodeSegments_run env bin cfg Hlen). cbv zeta.
  destruct Hpipe as [-> | [-> ->]]; cbn [fst snd];
    (split; [reflexivity | ]);
    rewrite !existsb_app, no_chan_in_probe; reflexivity.
Qed.

(** Both pipes set up: the channel is made and returned, whatever
    [cmd.Start] answers, and that answer is returned with it. *)
Lemma started_or_not env bin cfg :
  (2 <= List.length (SegmentTimes cfg))%nat ->
  cmd_StdoutPipe env = None -> cmd_StderrPipe env = None ->
  fst (run (TranscodeSegments env bin cfg))
  = (Some segments,
     cmd_Start env bin (args_for cfg (fst (run (detect_profile env bin cfg)))))
  /\ existsb is_make_chan (snd (run (TranscodeSegments env bin cfg))) = true.
Proof.
  intros Hlen Hso Hse. rewrite (TranscodeSegments_run env bin cfg Hlen).
  cbv zeta. rewrite Hso, Hse. cbn [fst snd]. split; [reflexivity | ].
  rewrite !existsb_app. cbn. now rewrite !orb_true_r.
Qed.

(** The call returns an error in these four cases and in no other. *)
Lemma error_cases env bin cfg :
  snd (fst (run (TranscodeSegments env bin cfg))) <> None
  <-> (List.length (SegmentTimes cfg) < 2)%nat
      \/ cmd_StdoutPipe env <> None
      \/ cmd_StderrPipe env <> None
      \/ cmd_Start env bin
           (args_for cfg (fst (run (detect_profile env bin cfg)))) <> None.
Proof.
  destruct (Nat.ltb_spec (List.length (SegmentTimes cfg)) 2) as [Hlt | Hge].
  - rewrite (config_error env bin cfg Hlt). cbn [fst snd].
    split; [now left | discriminate].
  - rewrite (TranscodeSegments_run env bin cfg Hge). cbv zeta.
    destruct (cmd_StdoutPipe env) as [e1 | ]; cbn [fst snd].
    + split; [right; left | ]; discriminate.
    + destruct (cmd_StderrPipe env) as [e2 | ]; cbn [fst snd].
      * split; [right; right; left | ]; discriminate.
      * split; [now right; right; right | ].
        intros [H | [H | [H | H]]]; [lia | congruence | congruence | exact H].
Qed.

(** C1, at an encoder that cannot be started.  With four boundary times
    and both pipes set up, [cmd.Start] fails: TranscodeSegments returns the
    error together with a channel, which it has made, and has started its
    three goroutines. *)
Theorem start_failure_returns_a_channel :
  let r := run (TranscodeSegments inputs.env_no_start "/opt/none/ffmpeg"
                                  inputs.cfg_0246) in
  fst r = (Some segments, Some (Errno 2))
  /\ existsb is_make_chan (snd r) = true
  /\ List.length (filter is_go (snd r)) = 3%nat.
Proof. cbv zeta. repeat split; vm_compute; reflexivity. Qed.

(** ** The scale filter *)

(** C5, as the code has it.  For every video profile the scale filter
    fixes one of the two requested dimensions at its requested value and
    leaves the other one to the encoder: the height when the width is at
    least the height, the width otherwise.  The anchor is the smaller of
    the two requested dimensions. *)
Theorem scale_anchor_is_smaller (profile : VideoProfile) :
  exists a,
    scale_filter profile = anchored_filter a profile
    /\ anchor_value a profile = Z.min (Width profile) (Height profile)
    /\ (a = AnchorHeight <-> Height profile <= Width profile)
    /\ (a = AnchorWidth <-> Width profile < Height profile).
Proof.
  unfold scale_filter.
  destruct (Z.geb_spec (Width profile) (Height profile)) as [Hge | Hlt].
  - exists AnchorHeight. cbn [anchored_filter anchor_value].
    repeat split; try lia; try discriminate; intros; lia.
  - exists AnchorWidth. cbn [anchored_filter anchor_value].
    repeat split; try lia; try discriminate; intros; lia.
Qed.

(** C5, as stated, fails at 1280x720: the filter is [scale=-2:720], which
    fixes the height, and the larger requested dimension is the width. *)
Lemma scale_anchor_is_not_larger :
  ~ (forall profile : VideoProfile,
        exists a,
          scale_filter profile = anchored_filter a profile
          /\ anchor_value a profile = Z.max (Width profile) (Height profile)).
Proof.
  intros H. destruct (H inputs.landscape) as [a [Hf Hv]].
  destruct a; [discriminate Hf | discriminate Hv].
Qed.

(** ** Examples *)

Example Sprintf_f6_examples :
  Sprintf_f6 (f64 2 0) = "2.000000"%string
  /\ Sprintf_f6 (f64 1 (-7)) = "0.007812"%string      (* 1/128, a tie *)
  /\ Sprintf_f6 (f64 3 (-7)) = "0.023438"%string      (* 3/128, a tie *)
  /\ Sprintf_f6 (f64 (-25) (-1)) = "-12.500000"%string
  /\ Sprintf_f6 (S754_zero true) = "-0.000000"%string
  /\ Sprintf_f6 S754_nan = "NaN"%string
  /\ Sprintf_f6 (S754_infinity false) = "+Inf"%string.
Proof. repeat split; vm_compute; reflexivity. Qed.

Example path_Join_examples :
  path_Join "out" "seg-%05d.ts" = "out/seg-%05d.ts"%string
  /\ path_Join "" "seg-%05d.ts" = "seg-%05d.ts"%string
  /\ path_Join "/a/../../b/./c//" "x" = "/b/c/x"%string
  /\ path_Join "../a/../.." "x" = "../../x"%string.
Proof. repeat split; vm_compute; reflexivity. Qed.

Example strings_Replace1_examples :
  strings_Replace1 "/opt/ffmpeg/bin/ffmpeg" "ffmpeg" "ffprobe"
  = "/opt/ffprobe/bin/ffmpeg"%string
  /\ strings_Replace1 "/usr/bin/avconv" "ffmpeg" "ffprobe"
     = "/usr/bin/avconv"%string.
Proof. repeat split; vm_compute; reflexivity. Qed.

(** Boundaries 0, 2, 4, 6, prefix seg, offset 0: no seek flag, end
    6.000000, the list 2.000000,4.000000,6.000000 twice. *)
Example args_at_0246 :
  built_args (snd (run (TranscodeSegments inputs.env_ok inputs.ffmpeg
                                          inputs.cfg_0246)))
  = Some ["-loglevel"; "warning";
          "-i"; "in.mkv"; "-to"; "6.000000"; "-copyts";
          "-force_key_frames"; "2.000000,4.000000,6.000000"; "-sn";
          "-vf"; "scale=-2:720"; "-c:v"; "libx264"; "-preset"; "faster";
          "-profile:v"; "high422"; "-level:v"; "4.0"; "-b:v"; "3000k";
          "-c:a"; "aac"; "-b:a"; "128k";
          "-f"; "segment"; "-segment_time_delta"; "0.2";
          "-segment_format"; "mpegts";
          "-segment_times"; "2.000000,4.000000,6.000000";
          "-segment_start_number"; "0";
          "-segment_list_type"; "flat"; "-segment_list"; "pipe:1";
          "out/seg-%05d.ts"]%string.
Proof. vm_compute; reflexivity. Qed.

(** ** The theorems at concrete inputs *)

Lemma keyframes_and_splits_agree_at_0246 :
  (2 <= List.length (SegmentTimes inputs.cfg_0246))%nat
  /\ exists args,
       built_args (snd (run (TranscodeSegments inputs.env_ok inputs.ffmpeg
                                               inputs.cfg_0246))) = Some args
       /\ let times := strings_Join
                         (map Sprintf_f6 (tl (SegmentTimes inputs.cfg_0246)))
                         "," in
          option_values "-force_key_frames" (items args) = [times]
          /\ option_values "-segment_times" (items args) = [times]
          /\ forallb (fun t => implb (is_number t) (six_decimals (Sprintf_f6 t)))
                     (tl (SegmentTimes inputs.cfg_0246)) = true.
Proof.
  split; [vm_compute; lia | ].
  apply (keyframes_and_splits_agree inputs.env_ok inputs.ffmpeg
                                    inputs.cfg_0246).
  vm_compute; lia.
Defined.

Lemma seek_iff_positive_start_at_468 :
  (2 <= List.length (SegmentTimes inputs.cfg_468))%nat
  /\ exists args,
       built_args (snd (run (TranscodeSegments inputs.env_ok inputs.ffmpeg
                                               inputs.cfg_468))) = Some args
       /\ let first := nth 0 (SegmentTimes inputs.cfg_468) f64_zero in
          has_option "-ss" (items args) = gt_zero first
          /\ (gt_zero first = true ->
              option_values "-ss" (items args) = [Sprintf_f6 first]
              /\ has_option "-ss" (before_input (items args)) = true
              /\ exists rest,
                   args = "-loglevel"%string :: "warning"%string
                          :: "-ss"%string :: Sprintf_f6 first
                          :: "-i"%string :: rest)
          /\ (gt_zero first = false ->
              option_values "-ss" (items args) = []
              /\ (In "-ss"%string args ->
                  InputFilePath inputs.cfg_468 = "-ss"%string)).
Proof.
  split; [vm_compute; lia | ].
  apply (seek_iff_positive_start inputs.env_ok inputs.ffmpeg inputs.cfg_468).
  vm_compute; lia.
Defined.

Lemma profile_follows_classifier_at_422 :
  VideoProfile_ inputs.cfg_0246 = Some inputs.landscape
  /\ (2 <= List.length (SegmentTimes inputs.cfg_0246))%nat
  /\ fst (run (detectVideoFormat inputs.env_ok (ffprobe_of inputs.ffmpeg)
                                 (InputFilePath inputs.cfg_0246)))
     = ("yuv422p10le"%string, None)
  /\ exists args,
       built_args (snd (run (TranscodeSegments inputs.env_ok inputs.ffmpeg
                                               inputs.cfg_0246))) = Some args
       /\ (In "yuv422p10le"%string format422 ->
           option_values "-profile:v" (items args) = ["high422"%string])
       /\ (~ In "yuv422p10le"%string format422 ->
           option_values "-profile:v" (items args) = ["high"%string]).
Proof.
  split; [reflexivity | split; [vm_compute; lia | split; [reflexivity | ] ] ].
  apply (proj2 (proj2 profile_follows_classifier)
           inputs.env_ok inputs.ffmpeg inputs.cfg_0246 inputs.landscape
           "yuv422p10le"%string).
  - reflexivity.
  - vm_compute; lia.
  - reflexivity.
Defined.

Lemma probe_failure_is_not_fatal_at_0246 :
  let e := wrapError "failed to run ffprobe: exit status 1" (ExitError 1) in
  let r := run (TranscodeSegments inputs.env_no_probe inputs.ffmpeg
                                  inputs.cfg_0246) in
  snd (fst (run (detectVideoFormat inputs.env_no_probe
                                   (ffprobe_of inputs.ffmpeg)
                                   (InputFilePath inputs.cfg_0246)))) = Some e
  /\ In (EvLog ("Warning: Could not detect video format, using default profile: "
                ++ Error e)) (snd r)
  /\ (exists args,
         built_args (snd r) = Some args
         /\ option_values "-profile:v" (items args) = ["high"%string]
         /\ fst r = (Some segments, None)
         /\ exists before,
              snd r = before ++ EvCommand inputs.ffmpeg args
                                :: EvLog (start_line inputs.ffmpeg args)
                                :: readings.launch)
  /\ let r' := run (TranscodeSegments inputs.env_420 inputs.ffmpeg
                                      inputs.cfg_0246) in
     fst r' = fst r
     /\ built_args (snd r') = built_args (snd r)
     /\ filter not_log (snd r') = filter not_log (snd r).
Proof.
  cbv zeta. split; [reflexivity | ].
  pose proof (proj2 probe_failure_is_not_fatal
                inputs.env_no_probe inputs.ffmpeg inputs.cfg_0246
                inputs.landscape
                (wrapError "failed to run ffprobe: exit status 1" (ExitError 1))
                eq_refl) as H.
  cbv zeta in H.
  destruct H as [Hlog [Hargs Hsame]]; [vm_compute; lia | reflexivity | ].
  split; [exact Hlog | split ].
  - destruct Hargs as [args [Hb [Hp [_ [_ [_ Hgo]]]]]].
    exists args. split; [exact Hb | split; [exact Hp | ] ].
    exact (Hgo eq_refl eq_refl).
  - apply (Hsame inputs.env_420 "yuv420p"%string); reflexivity.
Defined.

Lemma probe_binary_is_renamed_encoder_at_0246 :
  VideoProfile_ inputs.cfg_0246 = Some inputs.landscape
  /\ (2 <= List.length (SegmentTimes inputs.cfg_0246))%nat
  /\ exists b,
       probed (snd (run (TranscodeSegments inputs.env_ok inputs.ffmpeg
                                           inputs.cfg_0246))) = [b].
Proof.
  split; [reflexivity | split; [vm_compute; lia | ] ].
  apply (proj2 (proj2 (probe_binary_is_renamed_encoder
                         inputs.env_ok inputs.ffmpeg inputs.cfg_0246))
           inputs.landscape).
  - reflexivity.
  - vm_compute; lia.
Defined.

End hlsvod_facts.

(* ================================================================== *)
(** * Properties of cmdgroup *)
(* ================================================================== *)

Module cmdgroup_facts.
Import Go cmdgroup.

(** ** A command that was never started *)

Lemma posix_never_started {W : Type} `{posix.OS W} (cmd : option Cmd) (w : W) :
  never_started cmd -> posix.Kill cmd w = (None, w, []).
Proof.
  intros [-> | [c [-> Hc]]]; unfold posix.Kill, posix.platformKill;
    [reflexivity | now rewrite Hc].
Qed.

Lemma windows_never_started {W : Type} `{windows.OS W} (cmd : option Cmd) (w : W) :
  never_started cmd -> windows.Kill cmd w = (None, w, []).
Proof.
  intros [-> | [c [-> Hc]]]; unfold windows.Kill, windows.platformKill;
    [reflexivity | now rewrite Hc].
Qed.

(** ** The POSIX variant on a started process *)

(** C8. On the POSIX variant, for a started process: when the group id
    cannot be resolved, Kill logs the resolution error, terminates the
    process alone, and returns what that termination returns, nothing
    else; when it can, Kill sends SIGKILL to the negated group id and
    returns what that call returns. *)
Theorem posix_kill_resolution {W : Type} `{posix.OS W} (p : Process) (w : W) :
  let cmd := Some {| Process_ := Some p |} in
  (forall pgid e,
      posix.syscall_Getpgid (Pid p) w = (pgid, Some e) ->
      posix.Kill cmd w
      = (fst (posix.Process_Kill p w), snd (posix.Process_Kill p w),
         [EvGetpgid (Pid p);
          EvLogErr e "could not get process group id";
          EvProcessKill (Pid p)]))
  /\ (forall pgid,
         posix.syscall_Getpgid (Pid p) w = (pgid, None) ->
         posix.Kill cmd w
         = (fst (posix.syscall_Kill (- pgid) SIGKILL w),
            snd (posix.syscall_Kill (- pgid) SIGKILL w),
            [EvGetpgid (Pid p); EvKill (- pgid) SIGKILL])).
Proof.
  cbv zeta. unfold posix.Kill, posix.platformKill. cbn [Process_].
  split.
  - intros pgid e Hres. rewrite Hres.
    now destruct (posix.Process_Kill p w).
  - intros pgid Hres. rewrite Hres.
    now destruct (posix.syscall_Kill (- pgid) SIGKILL w).
Qed.

(** ** What Kill returns *)

(** C4, as the code has it.  On both variants Kill returns no error,
    makes no call and leaves the world as it is on a command that was
    never started (a nil command or a nil Process), also when it is called
    a second time.  On a started process Kill returns, in every state of
    the world and so on a second call as on a first, what the termination
    call of the platform returns, as it is: on the POSIX variant the result
    of syscall.Kill on the negated group id when syscall.Getpgid succeeds
    and the result of Process.Kill when it fails; on the Windows variant
    the result of the run of TASKKILL /T /PID with the process id.  In
    particular, whenever that call fails with an error, on a process that
    is gone or for any other reason, Kill returns that error. *)
Theorem kill_on_absent_process :
  (forall (W : Type) (os : posix.OS W) (cmd : option Cmd) (w : W),
      never_started cmd ->
      posix.Kill cmd w = (None, w, [])
      /\ posix.Kill cmd (snd (fst (posix.Kill cmd w))) = (None, w, []))
  /\ (forall (W : Type) (os : windows.OS W) (cmd : option Cmd) (w : W),
         never_started cmd ->
         windows.Kill cmd w = (None, w, [])
         /\ windows.Kill cmd (snd (fst (windows.Kill cmd w))) = (None, w, []))
  /\ (forall (W : Type) (os : posix.OS W) (p : Process) (w : W),
         let cmd := Some {| Process_ := Some p |} in
         let resolved := posix.syscall_Getpgid (Pid p) w in
         let call := match snd resolved with
                     | None => posix.syscall_Kill (- fst resolved) SIGKILL w
                     | Some _ => posix.Process_Kill p w
                     end in
         fst (fst (posix.Kill cmd w)) = fst call
         /\ snd (fst (posix.Kill cmd w)) = snd call
         /\ forall e, fst call = Some e ->
                      fst (fst (posix.Kill cmd w)) = Some e)
  /\ (forall (W : Type) (os : windows.OS W) (p : Process) (w : W),
         let cmd := Some {| Process_ := Some p |} in
         let call := windows.cmd_Run "TASKKILL"
                       ["/T"%string; "/PID"%string; itoa (Pid p)] w in
         fst (fst (windows.Kill cmd w)) = fst call
         /\ snd (fst (windows.Kill cmd w)) = snd call
         /\ forall e, fst call = Some e ->
                      fst (fst (windows.Kill cmd w)) = Some e).
Proof.
  split; [ | split; [ | split ] ].
  - intros W os cmd w Hn. rewrite !(posix_never_started cmd) by exact Hn.
    cbn [fst snd]. split; reflexivity.
  - intros W os cmd w Hn. rewrite !(windows_never_started cmd) by exact Hn.
    cbn [fst snd]. split; reflexivity.
  - intros W os p w. cbv zeta.
    unfold posix.Kill, posix.platformKill. cbn [Process_].
    destruct (posix.syscall_Getpgid (Pid p) w) as [pgid [err | ]];
      cbn [fst snd].
    + destruct (posix.Process_Kill p w) as [r w']. cbn [fst snd].
      repeat split. intros e He. exact He.
    + destruct (posix.syscall_Kill (- pgid) SIGKILL w) as [r w'].
      cbn [fst snd]. repeat split. intros e He. exact He.
  - intros W os p w. cbv zeta.
    unfold windows.Kill, windows.platformKill. cbn [Process_].
    destruct (windows.cmd_Run "TASKKILL"
                ["/T"%string; "/PID"%string; itoa (Pid p)] w) as [r w'].
    cbn [fst snd]. repeat split. intros e He. exact He.
Qed.

(** C4, as stated, fails.  The system answers as it does for a process
    that is killed and then waited for.  On the POSIX variant the first
    Kill of process 100 returns no error; the second finds no group for
    the process id, falls back on Process.Kill, and returns its error,
    os.ErrProcessDone.  On the Windows variant the first Kill returns no
    error; the second runs TASKKILL on a process id that no process has,
    and returns the error of that run, exit status 128. *)
Lemma second_kill_returns_an_error :
  (fst (fst (posix.Kill inputs.cmd_100 inputs.killed_then_waited)) = None
   /\ posix.Kill inputs.cmd_100
        (snd (fst (posix.Kill inputs.cmd_100 inputs.killed_then_waited)))
      = (Some ErrProcessDone, inputs.gone,
         [EvGetpgid 100;
          EvLogErr (Errno ESRCH) "could not get process group id";
          EvProcessKill 100]))
  /\ (fst (fst (windows.Kill inputs.cmd_100 inputs.killed_then_gone)) = None
      /\ windows.Kill inputs.cmd_100
           (snd (fst (windows.Kill inputs.cmd_100 inputs.killed_then_gone)))
         = (Some (ExitError 128), inputs.gone_windows,
            [EvRun "TASKKILL" ["/T"%string; "/PID"%string; "100"%string]])).
Proof. repeat split; vm_compute; reflexivity. Qed.

(** ** The theorems at concrete inputs *)

Lemma posix_kill_resolution_at_100 :
  (posix.syscall_Getpgid 100 inputs.gone = (-1, Some (Errno ESRCH))
   /\ posix.Kill inputs.cmd_100 inputs.gone
      = (Some ErrProcessDone, inputs.gone,
         [EvGetpgid 100;
          EvLogErr (Errno ESRCH) "could not get process group id";
          EvProcessKill 100]))
  /\ (posix.syscall_Getpgid 100 inputs.killed_then_waited = (100, None)
      /\ fst (fst (posix.Kill inputs.cmd_100 inputs.killed_then_waited)) = None
      /\ snd (posix.Kill inputs.cmd_100 inputs.killed_then_waited)
         = [EvGetpgid 100; EvKill (-100) SIGKILL]).
Proof.
  split.
  - split; [reflexivity | ].
    exact (proj1 (posix_kill_resolution {| Pid := 100 |} inputs.gone)
             (-1) (Errno ESRCH) eq_refl).
  - split; [reflexivity | ].
    pose proof (proj2 (posix_kill_resolution {| Pid := 100 |}
                                             inputs.killed_then_waited)
                  100 eq_refl) as H.
    cbv zeta in H. unfold inputs.cmd_100. rewrite H.
    split; reflexivity.
Defined.

Lemma kill_on_absent_process_at_100 :
  (never_started inputs.cmd_unstarted
   /\ posix.Kill inputs.cmd_unstarted inputs.killed_then_waited
      = (None, inputs.killed_then_waited, []))
  /\ (never_started inputs.cmd_unstarted
      /\ windows.Kill inputs.cmd_unstarted inputs.killed_then_gone
         = (None, inputs.killed_then_gone, []))
  /\ (fst (posix.Process_Kill {| Pid := 100 |} inputs.gone)
      = Some ErrProcessDone
      /\ fst (fst (posix.Kill inputs.cmd_100 inputs.gone))
         = Some ErrProcessDone)
  /\ (fst (windows.cmd_Run "TASKKILL"
             ["/T"%string; "/PID"%string; itoa 100] inputs.gone_windows)
      = Some (ExitError 128)
      /\ fst (fst (windows.Kill inputs.cmd_100 inputs.gone_windows))
         = Some (ExitError 128)).
Proof.
  assert (Hn : never_started inputs.cmd_unstarted)
    by (right; eexists; split; reflexivity).
  split; [ | split; [ | split ] ].
  - split; [exact Hn | ].
    exact (proj1 (proj1 kill_on_absent_process posix.World posix.told_OS
                   inputs.cmd_unstarted inputs.killed_then_waited Hn)).
  - split; [exact Hn | ].
    exact (proj1 (proj1 (proj2 kill_on_absent_process) windows.World
                   windows.told_OS inputs.cmd_unstarted
                   inputs.killed_then_gone Hn)).
  - split; [reflexivity | ].
    apply (proj2 (proj2 (proj1 (proj2 (proj2 kill_on_absent_process))
                          posix.World posix.told_OS {| Pid := 100 |}
                          inputs.gone))).
    reflexivity.
  - split; [reflexivity | ].
    apply (proj2 (proj2 (proj2 (proj2 (proj2 kill_on_absent_process))
                          windows.World windows.told_OS {| Pid := 100 |}
                          inputs.gone_windows))).
    reflexivity.
Defined.

End cmdgroup_facts.

(* ================================================================== *)
(** * Properties of the tasks *)
(* ================================================================== *)

Module tasks_facts.
Import Go tasks.

Lemma inv_init (started : bool) (output : list Output) :
  inv (init started output).
Proof.
  constructor; cbn; try reflexivity; try discriminate.
Qed.

Ltac step_cases H :=
  repeat match type of H with
         | context [match ?x with _ => _ end] => destruct x eqn:?
         | context [if ?b then _ else _] => destruct b eqn:?
         end;
  try discriminate H; injection H as <-.

Lemma step_inv (a : Actor) (s s' : State) :
  inv s -> step a s = Some s' -> inv s'.
Proof.
  intros [Hwg Hcl Heof Hwait Htk Hpi Hex Hca] Hstep.
  destruct a; cbn [step] in Hstep;
    unfold encoder_step, encoder_exit_step, encoder_finish_step, stdout_step,
           stderr_step, waiter_step, caller_step, scan_false, scan_failed,
           stderr_failed, with_so, with_se in Hstep;
    step_cases Hstep; constructor; cbn [script exited pipe_out pipe_err
      pipes_closed so se wt wg buf closed eof taken logged received
      caller_done] in *;
    repeat match goal with
           | H : so _ = _ |- _ => rewrite H in *
           | H : se _ = _ |- _ => rewrite H in *
           | H : wt _ = _ |- _ => rewrite H in *
           | H : buf _ = _ |- _ => rewrite H in *
           end;
    cbn [se_left wt_left so_closed so_past_loop so_past_wait pending
         wt_past_wait] in *;
    try assumption; try reflexivity; try discriminate; try lia;
    try (intros; discriminate);
    try (rewrite ?Htk, ?app_nil_r, <- ?app_assoc; cbn [app]; reflexivity);
    try (intros Hd; destruct (Hca Hd); discriminate);
    try (intros Hd; destruct (Hca Hd) as [Hso Hbuf]; split; congruence).
  - intros Hpast. specialize (Hwait Hpast).
    destruct (wt s); cbn [wt_left] in Hwg; lia.
  - intros Hpast. specialize (Hwait Hpast).
    destruct (se s); cbn [se_left] in Hwg; lia.
  - intros _. split; [ | reflexivity].
    match goal with
    | H : (_ && _)%bool = true |- _ =>
        apply andb_prop in H; destruct H as [Hclosed _]
    end.
    apply Nat.ltb_lt in Hclosed. rewrite Hcl in Hclosed.
    destruct (so s); cbn [so_closed] in Hclosed; try lia. reflexivity.
Qed.

Lemma exec_inv (sched : list Actor) :
  forall s s', inv s -> exec sched s = Some s' -> inv s'.
Proof.
  induction sched as [| a sched IH]; intros s s' Hinv Hexec; cbn [exec] in Hexec.
  - now injection Hexec as <-.
  - destruct (step a s) as [s1 | ] eqn:Hstep; [ | discriminate].
    eapply IH; [ | exact Hexec]. eapply step_inv; eassumption.
Qed.

(** Every step uses up some of what is left to do. *)
Lemma step_decreases (a : Actor) (s s' : State) :
  step a s = Some s' -> (steps_left s' < steps_left s)%nat.
Proof.
  intros Hstep.
  destruct a; cbn [step] in Hstep;
    unfold encoder_step, encoder_exit_step, encoder_finish_step, stdout_step,
           stderr_step, waiter_step, caller_step, scan_false, scan_failed,
           stderr_failed, with_so, with_se in Hstep;
    step_cases Hstep; unfold steps_left, list_sum;
    cbn [script exited pipe_out pipe_err pipes_closed so se wt wg buf closed
         eof taken logged received caller_done];
    try match goal with
        | H : (_ && negb _)%bool = true |- _ =>
            apply andb_prop in H; destruct H as [_ H];
            apply negb_true_iff in H
        end;
    repeat match goal with
           | H : _ = _ |- _ => rewrite H
           end;
    rewrite ?length_app;
    cbn [map fold_right output_weight so_weight se_weight wt_weight
         List.length];
    lia.
Qed.

Lemma exec_bounded (sched : list Actor) :
  forall s s', exec sched s = Some s' ->
               (List.length sched + steps_left s' <= steps_left s)%nat.
Proof.
  induction sched as [| a sched IH]; intros s s' Hexec; cbn [exec] in Hexec.
  - injection Hexec as <-. cbn [List.length]. lia.
  - destruct (step a s) as [s1 | ] eqn:Hstep; [ | discriminate].
    apply IH in Hexec. apply step_decreases in Hstep.
    cbn [List.length]. lia.
Qed.

(** Until the caller has seen the channel closed, someone can move. *)
Lemma progress (s : State) :
  inv s -> caller_done s = false -> exists a s', step a s = Some s'.
Proof.
  intros [Hwg Hcl Heof Hwait Htk Hpi Hex Hca] Hnd.
  destruct (so s) as [ | l | | | ] eqn:Hso.
  - (* at Scan *)
    destruct (pipes_closed s) eqn:Hpc.
    + exists Stdout. cbn [step]. unfold stdout_step. rewrite Hso, Hpc. cbn. eauto.
    + destruct (pipe_out s) as [| l rest] eqn:Hpo.
      * destruct (exited s) eqn:Hx.
        -- exists Stdout. cbn [step]. unfold stdout_step.
           rewrite Hso, Hpc, Hpo, Hx. cbn. eauto.
        -- exists EncoderExit. cbn [step]. unfold encoder_exit_step.
           rewrite Hx. cbn. eauto.
      * exists Stdout. cbn [step]. unfold stdout_step.
        rewrite Hso, Hpc, Hpo. cbn. eauto.
  - (* at the send *)
    destruct (buf s) as [| x rest] eqn:Hbuf.
    + exists Stdout. cbn [step]. unfold stdout_step. rewrite Hso, Hbuf. cbn. eauto.
    + exists Caller. cbn [step]. unfold caller_step. rewrite Hbuf. cbn. eauto.
  - (* at wg.Wait *)
    destruct (wt s) eqn:Hwt.
    + destruct (exited s) eqn:Hx.
      * exists Waiter. cbn [step]. unfold waiter_step. rewrite Hwt, Hx. cbn. eauto.
      * exists EncoderExit. cbn [step]. unfold encoder_exit_step.
        rewrite Hx. cbn. eauto.
    + exists Waiter. cbn [step]. unfold waiter_step. rewrite Hwt. cbn. eauto.
    + destruct (se s) eqn:Hse.
      * exists Stderr. cbn [step]. unfold stderr_step.
        rewrite Hse, Hpi. cbn [wt_past_wait]. cbn. eauto.
      * exists Stderr. cbn [step]. unfold stderr_step. rewrite Hse. cbn. eauto.
      * exists Stdout. cbn [step]. unfold stdout_step.
        rewrite Hso, Hwg. cbn [se_left wt_left Z.add Z.eqb]. cbn. eauto.
  - (* at close *)
    exists Stdout. cbn [step]. unfold stdout_step. rewrite Hso. cbn. eauto.
  - (* closed *)
    exists Caller. cbn [step]. unfold caller_step.
    destruct (buf s) as [| x rest]; [ | cbn; eauto].
    rewrite Hcl, Hnd. cbn. eauto.
Qed.

(** The step that closes the channel. *)
Lemma closing_step (a : Actor) (s s' : State) :
  inv s -> step a s = Some s' -> closed s' <> closed s ->
  a = Stdout /\ closed s = 0%nat /\ closed s' = 1%nat
  /\ eof s = true /\ se s = SeDone /\ wt s = WtDone /\ wg s = 0
  /\ taken s = received s ++ buf s.
Proof.
  intros [Hwg Hcl Heof Hwait Htk Hpi Hex Hca] Hstep Hne.
  destruct a; cbn [step] in Hstep;
    unfold encoder_step, encoder_exit_step, encoder_finish_step, stdout_step,
           stderr_step, waiter_step, caller_step, scan_false, scan_failed,
           stderr_failed, with_so, with_se in Hstep;
    step_cases Hstep; cbn [closed] in Hne; try congruence.
  match goal with H : so s = SoClose |- _ => rename H into Hso end.
  try rewrite Hso in *.
  cbn [closed so_closed so_past_loop so_past_wait pending] in *.
  specialize (Hwait eq_refl). rewrite Hwait in Hwg.
  rewrite app_nil_r in Htk.
  repeat split; try assumption; try lia.
  - destruct (se s); [ | | reflexivity];
      destruct (wt s); cbn [se_left wt_left] in Hwg; lia.
  - destruct (wt s); [ | | reflexivity];
      destruct (se s); cbn [se_left wt_left] in Hwg; lia.
Qed.

(** What the join does ensure.  From the state in which
    TranscodeSegments returns the channel, under every schedule of the
    three goroutines, the encoder and a caller that keeps receiving: the
    channel is closed at most once; the step that closes it is the stdout
    reader's, taken after that reader has left its scan loop (Scan has
    returned false, at the end of the stream or on a read error), after
    the stderr reader and the exit waiter have both called wg.Done, and
    with every line that was read already sent; no schedule is longer than
    a bound fixed by the output of the encoder; as long as the caller has
    not seen the channel closed some step can be taken; and when it has,
    the channel has been closed once and the caller has received every
    line the reader has read.  Lines that were written and not read are
    not counted. *)
Theorem channel_closed_once_after_join
  (started : bool) (output : list Output) (sched : list Actor) (s : State) :
  exec sched (init started output) = Some s ->
  (closed s <= 1)%nat
  /\ (closed s = 1%nat ->
      eof s = true /\ se s = SeDone /\ wt s = WtDone /\ wg s = 0
      /\ taken s = received s ++ buf s)
  /\ (forall a s', step a s = Some s' -> closed s' <> closed s ->
        a = Stdout /\ closed s = 0%nat /\ closed s' = 1%nat
        /\ eof s = true /\ se s = SeDone /\ wt s = WtDone /\ wg s = 0
        /\ taken s = received s ++ buf s)
  /\ (List.length sched + steps_left s <= steps_left (init started output))%nat
  /\ (caller_done s = false -> exists a s', step a s = Some s')
  /\ (caller_done s = true -> closed s = 1%nat /\ received s = taken s).
Proof.
  intros Hexec.
  pose proof (exec_inv sched _ _ (inv_init started output) Hexec) as Hinv.
  pose proof Hinv as [Hwg Hcl Heof Hwait Htk Hpi Hex Hca].
  split; [ | split; [ | split; [ | split; [ | split ] ] ] ].
  - rewrite Hcl. destruct (so s); cbn [so_closed]; lia.
  - intros Hone. rewrite Hcl in Hone.
    destruct (so s) eqn:Hso; cbn [so_closed] in Hone; try discriminate.
    cbn [so_past_loop so_past_wait pending] in *.
    specialize (Hwait eq_refl). rewrite Hwait in Hwg.
    rewrite app_nil_r in Htk.
    repeat split; try assumption.
    + destruct (se s); [ | | reflexivity];
        destruct (wt s); cbn [se_left wt_left] in Hwg; lia.
    + destruct (wt s); [ | | reflexivity];
        destruct (se s); cbn [se_left wt_left] in Hwg; lia.
  - intros a s' Hstep Hne. now apply closing_step.
  - now apply exec_bounded.
  - now apply progress.
  - intros Hdone. destruct (Hca Hdone) as [Hso Hbuf].
    rewrite Hcl, Htk, Hso, Hbuf. cbn [so_closed pending].
    now rewrite !app_nil_r.
Qed.

(** C9 does not hold of the code: the channel can be closed before
    every segment notification has been forwarded.  The exit waiter calls
    [cmd.Wait] while the stdout reader may still be reading, and Wait
    closes the read end of the pipe once the process is gone.  Here the
    encoder writes one segment name and ends with status 0; the exit
    waiter is served first, Wait returns and logs the success line; Scan
    then returns false on a read error, which is logged, not at the end
    of the stream; after the join the channel is closed, once, and the
    caller sees it closed, without the segment name having been read or
    received. *)
Theorem channel_closed_with_a_line_unread :
  exists s,
    exec inputs.waiter_first (init true inputs.one_segment) = Some s
    /\ stdout_lines inputs.one_segment = ["seg-00000.ts"%string]
    /\ exit_ok s = true
    /\ notes s = [WaitSuccess; StdoutReadError; StderrReadError]
    /\ so s = SoDone /\ se s = SeDone /\ wt s = WtDone /\ wg s = 0
    /\ closed s = 1%nat
    /\ caller_done s = true
    /\ taken s = []
    /\ received s = [].
Proof.
  eexists. split; [vm_compute; reflexivity | ].
  repeat split.
Qed.

(** ** The theorem at a concrete schedule *)

Lemma channel_closed_once_after_join_at_two_segments :
  exists s,
    exec inputs.one_schedule (init true inputs.two_segments) = Some s
    /\ caller_done s = true
    /\ closed s = 1%nat
    /\ received s = taken s.
Proof.
  eexists. split; [vm_compute; reflexivity | ].
  split; [reflexivity | ].
  apply (channel_closed_once_after_join true inputs.two_segments
           inputs.one_schedule).
  - vm_compute; reflexivity.
  - reflexivity.
Defined.

End tasks_facts.

(* ================================================================== *)
(** * Further properties of hlsvod *)
(* ================================================================== *)

Module hlsvod_more.
Import Go hlsvod readings hlsvod_facts.

(** ** Failures before the process *)

(** With fewer than two boundary times the call is refused before it does
    anything: no channel, the error "minimum 2 segment times needed",
    which wraps nothing, and no event at all, so no probe is run, nothing
    is logged and no command is built. *)
Theorem too_few_times_is_refused env bin cfg :
  (List.length (SegmentTimes cfg) < 2)%nat ->
  let r := run (TranscodeSegments env bin cfg) in
  fst (fst r) = None
  /\ (exists e, snd (fst r) = Some e
                /\ Error e = "minimum 2 segment times needed"%string
                /\ Unwrap e = None)
  /\ snd r = [].
Proof.
  intros Hlt. cbv zeta. rewrite (config_error env bin cfg Hlt). cbn [fst snd].
  split; [reflexivity | split; [ | reflexivity] ].
  eexists. repeat split.
Qed.

Lemma detect_profile_events env bin cfg :
  forallb (fun e => is_log e || is_probe e)
          (snd (run (detect_profile env bin cfg))) = true.
Proof.
  rewrite detect_profile_run.
  destruct (VideoProfile_ cfg) as [vp | ]; [ | reflexivity].
  cbv zeta.
  destruct (snd (fst (run (detectVideoFormat env (ffprobe_of bin)
                                             (InputFilePath cfg)))));
    reflexivity.
Qed.

Lemma filter_none {A : Type} (keep among : A -> bool) (l : list A) :
  forallb among l = true ->
  (forall a, among a = true -> keep a = false) ->
  filter keep l = [].
Proof.
  intros Hall Hno. induction l as [| a l IH]; [reflexivity | ].
  cbn [forallb] in Hall. apply andb_prop in Hall. destruct Hall as [Ha Hl].
  cbn [filter]. rewrite (Hno a Ha). now apply IH.
Qed.

Lemma probe_has_no (keep : Event -> bool) env bin cfg :
  (forall e, is_log e || is_probe e = true -> keep e = false) ->
  filter keep (snd (run (detect_profile env bin cfg))) = [].
Proof.
  intros Hno. eapply filter_none; [apply detect_profile_events | exact Hno].
Qed.

Ltac not_among := intros [ ]; cbn; congruence.

(** When a pipe cannot be set up, after the configuration was accepted:
    the pipe's own error is returned with no channel; no channel is made,
    no goroutine is started and [cmd.Start] is not called.  The command
    has been built, and with a video profile the probe has already been
    run. *)
Theorem pipe_failure_starts_nothing env bin cfg e :
  (2 <= List.length (SegmentTimes cfg))%nat ->
  cmd_StdoutPipe env = Some e
  \/ (cmd_StdoutPipe env = None /\ cmd_StderrPipe env = Some e) ->
  let r := run (TranscodeSegments env bin cfg) in
  fst r = (None, Some e)
  /\ filter is_make_chan (snd r) = []
  /\ filter is_go (snd r) = []
  /\ filter is_start (snd r) = []
  /\ List.length (filter is_command (snd r)) = 1%nat
  /\ probed (snd r) = match VideoProfile_ cfg with
                      | Some _ => [ffprobe_of bin]
                      | None => []
                      end.
Proof.
  intros Hlen Hpipe. cbv zeta.
  rewrite (TranscodeSegments_run env bin cfg Hlen). cbv zeta.
  destruct Hpipe as [-> | [-> ->]]; cbn [fst snd];
    rewrite ?filter_app, ?probed_app, probed_detect_profile;
    rewrite !probe_has_no by not_among;
    cbn [filter is_make_chan is_go is_start is_command probed app List.length];
    rewrite ?app_nil_r; repeat split; reflexivity.
Qed.

(** ** The order of what a call does *)

(** With at least two boundary times and both pipes set up, whether or
    not the process then starts: first the probe and its log lines, then
    the command and the line that logs it, then the two pipes, the
    channel, the stdout reader and the stderr reader, and only then
    [cmd.Start], followed by the exit waiter.  The readers are in place
    before the process can write. *)
Theorem readers_start_before_the_process env bin cfg :
  (2 <= List.length (SegmentTimes cfg))%nat ->
  cmd_StdoutPipe env = None ->
  cmd_StderrPipe env = None ->
  exists pre args,
    snd (run (TranscodeSegments env bin cfg))
    = pre ++ EvCommand bin args :: EvLog (start_line bin args) :: launch
    /\ forallb (fun e => is_log e || is_probe e) pre = true
    /\ built_args (snd (run (TranscodeSegments env bin cfg))) = Some args.
Proof.
  intros Hlen Hso Hse.
  rewrite (built_args_TranscodeSegments env bin cfg Hlen).
  rewrite (TranscodeSegments_run env bin cfg Hlen). cbv zeta.
  rewrite Hso, Hse. cbn [snd].
  exists (snd (run (detect_profile env bin cfg))),
         (args_for cfg (fst (run (detect_profile env bin cfg)))).
  split; [ | split; [apply detect_profile_events | reflexivity] ].
  rewrite <- app_assoc. reflexivity.
Qed.

(** ** The values of the options *)

Lemma nth_last {A : Type} (d : A) (l : list A) :
  nth (List.length l - 1) l d = last l d.
Proof.
  induction l as [| a l IH]; [reflexivity | ].
  destruct l as [| b l]; [reflexivity | ].
  change (nth (List.length (a :: b :: l) - 1) (a :: b :: l) d)
    with (nth (List.length l) (b :: l) d).
  change (last (a :: b :: l) d) with (last (b :: l) d).
  rewrite <- IH. cbn [List.length]. now rewrite Nat.sub_succ, Nat.sub_0_r.
Qed.

(** Whatever strings the configuration holds, the encoder reads the input
    path as the value of -i and of nothing else, the last boundary time as
    the value of -to, the offset as the value of -segment_start_number, and
    the completed segments are listed on its standard output (pipe:1). *)
Theorem input_end_and_offset env bin cfg :
  (2 <= List.length (SegmentTimes cfg))%nat ->
  exists args,
    built_args (snd (run (TranscodeSegments env bin cfg))) = Some args
    /\ option_values "-i" (items args) = [InputFilePath cfg]
    /\ option_values "-to" (items args)
       = [Sprintf_f6 (last (SegmentTimes cfg) f64_zero)]
    /\ option_values "-segment_start_number" (items args)
       = [itoa (SegmentOffset cfg)]
    /\ option_values "-segment_list" (items args) = ["pipe:1"%string]
    /\ option_values "-f" (items args) = ["segment"%string].
Proof.
  intros Hlen. eexists. split; [now apply built_args_TranscodeSegments | ].
  rewrite items_args_for. cbv zeta. rewrite nth_last.
  unfold video_items, audio_items.
  repeat split;
    destruct (gt_zero (nth 0 (SegmentTimes cfg) f64_zero));
    destruct (VideoProfile_ cfg) as [vp | ];
    destruct (AudioProfile_ cfg) as [ap | ];
    read_args; reflexivity.
Qed.

(** ** The output pattern *)

Lemma ends_with_app (suffix q : string) :
  ends_with suffix (q ++ suffix) = true.
Proof.
  induction q as [| c q IH].
  - cbn [append]. destruct suffix; cbn [ends_with];
      now rewrite String.eqb_refl.
  - cbn [append ends_with]. rewrite IH. apply orb_true_r.
Qed.

Lemma concat_last_suffix (sep x : string) (l : list string) :
  exists q, String.concat sep (l ++ [x]) = (q ++ x)%string.
Proof.
  induction l as [| a l [q IH]]; cbn [app String.concat].
  - exists EmptyString. reflexivity.
  - destruct (l ++ [x]) as [| b r] eqn:Hl.
    + destruct l; discriminate Hl.
    + exists (a ++ sep ++ q)%string. rewrite IH.
      now rewrite !append_assoc.
Qed.

Lemma path_Clean_suffix (q : string) :
  exists q', path_Clean (q ++ pattern) = (q' ++ pattern)%string.
Proof.
  destruct (components_pattern q) as [front [lq Hc]].
  assert (Hlen : (8 <= String.length (lq ++ pattern)%string)%nat)
    by (rewrite length_append; cbn [pattern String.length]; lia).
  unfold path_Clean.
  destruct (q ++ pattern)%string as [| c0 p] eqn:Hp.
  - destruct q; discriminate Hp.
  - rewrite Hc, fold_left_app. cbn [fold_left].
    rewrite clean_step_pattern. cbn [rev].
    destruct (concat_last_suffix "/" (lq ++ pattern)
                (rev (fold_left (clean_step (Ascii.eqb c0 "/"%char)) front [])))
      as [q1 Hq1].
    rewrite Hq1.
    destruct (Ascii.eqb c0 "/"%char).
    + exists (String "/"%char (q1 ++ lq)). cbn [append].
      now rewrite append_assoc.
    + rewrite eqb_short
        by (rewrite !length_append in *; cbn [String.length]; lia).
      exists (q1 ++ lq)%string. now rewrite append_assoc.
Qed.

Lemma path_Join_suffix (dir prefix : string) :
  exists q, path_Join dir (prefix ++ pattern) = (q ++ pattern)%string.
Proof.
  unfold path_Join.
  destruct (String.eqb dir "").
  - rewrite eqb_short
      by (rewrite length_append; cbn [pattern String.length]; lia).
    apply path_Clean_suffix.
  - rewrite <- !append_assoc. apply path_Clean_suffix.
Qed.

Lemma output_is_not (cfg : TranscodeConfig) (name : string) :
  ends_with pattern name = false ->
  String.eqb (path_Join (OutputDirPath cfg) (SegmentPrefix cfg ++ "-%05d.ts"))
             name = false.
Proof.
  intros Hname. apply String.eqb_neq. intros Heq.
  destruct (path_Join_suffix (OutputDirPath cfg) (SegmentPrefix cfg))
    as [q Hq].
  unfold pattern in Hq at 1. rewrite Heq in Hq.
  rewrite Hq, ends_with_app in Hname. discriminate Hname.
Qed.

(** The video options are given exactly when there is a video profile, the
    audio options exactly when there is an audio profile; the codecs are
    libx264 and aac, the bitrates are the profiles' with a k after them;
    subtitles are always dropped and timestamps always copied. *)
Theorem profiles_decide_the_codec_options env bin cfg :
  (2 <= List.length (SegmentTimes cfg))%nat ->
  exists args,
    built_args (snd (run (TranscodeSegments env bin cfg))) = Some args
    /\ has_option "-vf" (items args) = present (VideoProfile_ cfg)
    /\ has_option "-profile:v" (items args) = present (VideoProfile_ cfg)
    /\ option_values "-c:v" (items args)
       = match VideoProfile_ cfg with
         | Some _ => ["libx264"%string]
         | None => []
         end
    /\ option_values "-b:v" (items args)
       = match VideoProfile_ cfg with
         | Some profile => [(itoa (VBitrate profile) ++ "k")%string]
         | None => []
         end
    /\ option_values "-c:a" (items args)
       = match AudioProfile_ cfg with
         | Some _ => ["aac"%string]
         | None => []
         end
    /\ option_values "-b:a" (items args)
       = match AudioProfile_ cfg with
         | Some profile => [(itoa (ABitrate profile) ++ "k")%string]
         | None => []
         end
    /\ has_option "-sn" (items args) = true
    /\ has_option "-copyts" (items args) = true.
Proof.
  intros Hlen. eexists. split; [now apply built_args_TranscodeSegments | ].
  rewrite items_args_for. cbv zeta. unfold video_items, audio_items.
  repeat split;
    destruct (gt_zero (nth 0 (SegmentTimes cfg) f64_zero));
    destruct (VideoProfile_ cfg) as [vp | ];
    destruct (AudioProfile_ cfg) as [ap | ];
    read_args; cbn [present];
    rewrite ?output_is_not by reflexivity;
    reflexivity.
Qed.

(** Without a video profile nothing of the probe's world is used: two
    worlds that agree on the pipes and on [cmd.Start] give the same result
    and the same events, whatever their inspection tool and decoder
    answer. *)
Theorem without_video_profile_no_probe_is_consulted env env' bin cfg :
  VideoProfile_ cfg = None ->
  cmd_StdoutPipe env' = cmd_StdoutPipe env ->
  cmd_StderrPipe env' = cmd_StderrPipe env ->
  (forall b a, cmd_Start env' b a = cmd_Start env b a) ->
  run (TranscodeSegments env' bin cfg) = run (TranscodeSegments env bin cfg).
Proof.
  intros Hvp Hso Hse Hstart.
  destruct (Nat.ltb_spec (List.length (SegmentTimes cfg)) 2) as [Hlt | Hge].
  - now rewrite !config_error by exact Hlt.
  - rewrite (TranscodeSegments_run env bin cfg Hge),
            (TranscodeSegments_run env' bin cfg Hge).
    rewrite !detect_profile_run, Hvp. cbv zeta. cbn [fst snd].
    now rewrite Hso, Hse, Hstart.
Qed.

(** ** The list of times, cut at its commas *)

Lemma has_char_app (c : ascii) (a b : string) :
  has_char c (a ++ b) = has_char c a || has_char c b.
Proof.
  induction a as [| x a IH]; cbn [append has_char]; [reflexivity | ].
  now rewrite IH, orb_assoc.
Qed.

Lemma digits_no_comma (t : string) :
  all_digits t = true -> has_char ","%char t = false.
Proof.
  induction t as [| c t IH]; cbn [all_digits has_char]; [reflexivity | ].
  intros H. apply andb_prop in H. destruct H as [Hc Ht].
  rewrite (IH Ht), orb_false_r.
  destruct (Ascii.eqb_spec c ","%char) as [-> | _];
    [discriminate Hc | reflexivity].
Qed.

Lemma Sprintf_f6_no_comma (x : float64) :
  has_char ","%char (Sprintf_f6 x) = false.
Proof.
  destruct x as [s | s | | s m e]; cbn [Sprintf_f6];
    try (destruct s; reflexivity); try reflexivity.
  rewrite !has_char_app.
  rewrite (digits_no_comma _ (utoa_digits _)),
          (digits_no_comma _ (frac6_digits _)).
  destruct s; reflexivity.
Qed.

Lemma fields_whole (sep : ascii) (x : string) :
  has_char sep x = false -> fields sep x = [x].
Proof.
  induction x as [| c x IH]; cbn [has_char fields]; [reflexivity | ].
  intros H. apply orb_false_elim in H. destruct H as [Hc Hx].
  now rewrite Hc, (IH Hx).
Qed.

Lemma fields_cut (sep : ascii) (x t : string) :
  has_char sep x = false ->
  fields sep (x ++ String sep t) = x :: fields sep t.
Proof.
  induction x as [| c x IH]; cbn [has_char append fields].
  - intros _. now rewrite Ascii.eqb_refl.
  - intros H. apply orb_false_elim in H. destruct H as [Hc Hx].
    now rewrite Hc, (IH Hx).
Qed.

(** Joining with commas and cutting at the commas gives the list back,
    when the list is not empty and no element has a comma. *)
Lemma fields_concat (l : list string) :
  l <> [] ->
  forallb (fun x => negb (has_char ","%char x)) l = true ->
  fields ","%char (String.concat "," l) = l.
Proof.
  induction l as [| x l IH]; [congruence | ].
  intros _ Hall. cbn [forallb] in Hall.
  apply andb_prop in Hall. destruct Hall as [Hx Hl].
  apply negb_true_iff in Hx.
  destruct l as [| y l].
  - cbn [String.concat]. now apply fields_whole.
  - replace (String.concat "," (x :: y :: l))
      with (x ++ String ","%char (String.concat "," (y :: l)))%string
      by reflexivity.
    rewrite (fields_cut _ _ _ Hx). f_equal. apply IH; [discriminate | exact Hl].
Qed.

Lemma keyframes_and_splits_agree_core cfg :
  forall high,
    option_values "-force_key_frames" (items (args_for cfg high))
    = [strings_Join (map Sprintf_f6 (tl (SegmentTimes cfg))) ","]
    /\ option_values "-segment_times" (items (args_for cfg high))
       = [strings_Join (map Sprintf_f6 (tl (SegmentTimes cfg))) ","].
Proof.
  intros high. rewrite items_args_for. cbv zeta. rewrite tl_map.
  unfold video_items, audio_items.
  split;
    destruct (gt_zero (nth 0 (SegmentTimes cfg) f64_zero));
    destruct (VideoProfile_ cfg) as [vp | ];
    destruct (AudioProfile_ cfg) as [ap | ];
    read_args; reflexivity.
Qed.

(** The value of -force_key_frames, cut at its commas, is the list of the
    printed boundary times but the first, one field for each: the join
    loses nothing, since no printed time has a comma in it. *)
Theorem keyframe_list_splits_back env bin cfg :
  (2 <= List.length (SegmentTimes cfg))%nat ->
  exists args v,
    built_args (snd (run (TranscodeSegments env bin cfg))) = Some args
    /\ option_values "-force_key_frames" (items args) = [v]
    /\ option_values "-segment_times" (items args) = [v]
    /\ fields ","%char v = map Sprintf_f6 (tl (SegmentTimes cfg))
    /\ List.length (fields ","%char v)
       = (List.length (SegmentTimes cfg) - 1)%nat.
Proof.
  intros Hlen.
  destruct (keyframes_and_splits_agree_core cfg
              (fst (run (detect_profile env bin cfg)))) as [Hk Hs].
  exists (args_for cfg (fst (run (detect_profile env bin cfg)))),
         (strings_Join (map Sprintf_f6 (tl (SegmentTimes cfg))) ",").
  split; [now apply built_args_TranscodeSegments | ].
  split; [apply Hk | split; [apply Hs | ] ].
  assert (Hf : fields ","%char
                 (strings_Join (map Sprintf_f6 (tl (SegmentTimes cfg))) ",")
               = map Sprintf_f6 (tl (SegmentTimes cfg))).
  { unfold strings_Join. apply fields_concat.
    - destruct (SegmentTimes cfg) as [| t0 [| t1 l]];
        cbn [List.length] in Hlen; try lia. discriminate.
    - apply forallb_forall. intros t Hin. apply in_map_iff in Hin.
      destruct Hin as [x [<- _]]. now rewrite Sprintf_f6_no_comma. }
  split; [exact Hf | ].
  rewrite Hf, length_map.
  destruct (SegmentTimes cfg); cbn [tl List.length]; lia.
Qed.

(** ** The output file and the probe *)

(** The output pattern, path.Join of the directory and of the prefix
    followed by -%05d.ts, is the last argument.  Whatever the directory
    and the prefix are, after the cleaning of the path it still ends with
    -%05d.ts.  It is the value of none of the options before it: read
    with the options the program passes, the last item of the argument
    list is this argument on its own.  Nothing is said of how the encoder
    reads an argument that starts with a dash. *)
Theorem output_pattern_is_last env bin cfg :
  (2 <= List.length (SegmentTimes cfg))%nat ->
  exists args,
    built_args (snd (run (TranscodeSegments env bin cfg))) = Some args
    /\ last args ""%string
       = path_Join (OutputDirPath cfg) (SegmentPrefix cfg ++ "-%05d.ts")
    /\ ends_with "-%05d.ts" (last args ""%string) = true
    /\ last (items args) (Alone "") = Alone (last args ""%string).
Proof.
  intros Hlen. eexists. split; [now apply built_args_TranscodeSegments | ].
  assert (Hlast : last (args_for cfg (fst (run (detect_profile env bin cfg))))
                       ""%string
                  = path_Join (OutputDirPath cfg)
                              (SegmentPrefix cfg ++ "-%05d.ts")).
  { unfold args_for. cbv zeta.
    destruct (gt_zero (nth 0 (SegmentTimes cfg) f64_zero));
      destruct (VideoProfile_ cfg) as [vp | ];
      destruct (AudioProfile_ cfg) as [ap | ];
      reflexivity. }
  split; [exact Hlast | split ].
  - rewrite Hlast.
    destruct (path_Join_suffix (OutputDirPath cfg) (SegmentPrefix cfg))
      as [q Hq].
    unfold pattern in Hq at 1. rewrite Hq. apply ends_with_app.
  - rewrite Hlast, items_args_for. cbv zeta. unfold video_items, audio_items.
    destruct (gt_zero (nth 0 (SegmentTimes cfg) f64_zero));
      destruct (VideoProfile_ cfg) as [vp | ];
      destruct (AudioProfile_ cfg) as [ap | ];
      reflexivity.
Qed.

(** What the probe returns: the pixel format of the first stream reported,
    whatever streams follow it, and no error; or the empty string and an
    error.  The error of a tool that could not be run and the error of a
    decoder that could not parse are wrapped, with their message after a
    prefix that says which of the two failed; no stream at all is an error
    of its own. *)
Theorem detectVideoFormat_result env b i :
  let r := fst (run (detectVideoFormat env b i)) in
  let out := cmd_Output env b (probe_args i) in
  let parsed := json_Unmarshal env (fst out) in
  (forall first rest,
      snd out = None -> snd parsed = None ->
      Streams (fst parsed) = first :: rest ->
      r = (PixelFormat first, None))
  /\ (snd r <> None -> fst r = ""%string)
  /\ (forall cause,
         snd out = Some cause ->
         exists e, snd r = Some e /\ Unwrap e = Some cause
                   /\ Error e = ("failed to run ffprobe: " ++ Error cause)%string)
  /\ (forall cause,
         snd out = None -> snd parsed = Some cause ->
         exists e, snd r = Some e /\ Unwrap e = Some cause
                   /\ Error e
                      = ("failed to parse ffprobe output: " ++ Error cause)%string)
  /\ (snd out = None -> snd parsed = None -> Streams (fst parsed) = [] ->
      exists e, snd r = Some e /\ Unwrap e = None
                /\ Error e = "no video streams found"%string).
Proof.
  cbv zeta. unfold detectVideoFormat, run, bind, emit, ret.
  destruct (cmd_Output env b (probe_args i)) as [output [err | ]]; cbn [fst snd].
  - repeat split; try discriminate; try reflexivity.
    intros cause [= <-]. eexists. repeat split.
  - destruct (json_Unmarshal env output) as [po [err | ]]; cbn [fst snd].
    + repeat split; try discriminate; try reflexivity.
      intros cause _ [= <-]. eexists. repeat split.
    + destruct (Streams po) as [| first rest]; cbn [fst snd].
      * repeat split; try discriminate; try reflexivity.
        intros _ _ _. eexists. repeat split.
      * repeat split; try discriminate; congruence.
Qed.

(** ** The theorems at concrete inputs *)

Lemma error_cases_at_no_start :
  snd (fst (run (TranscodeSegments inputs.env_no_start inputs.ffmpeg
                                   inputs.cfg_0246))) <> None.
Proof.
  apply (proj2 (error_cases inputs.env_no_start inputs.ffmpeg inputs.cfg_0246)).
  right; right; right. vm_compute. discriminate.
Defined.

Lemma too_few_times_is_refused_at_one_time :
  (List.length (SegmentTimes more_inputs.cfg_one_time) < 2)%nat
  /\ let r := run (TranscodeSegments inputs.env_ok inputs.ffmpeg
                                     more_inputs.cfg_one_time) in
     fst (fst r) = None
     /\ (exists e, snd (fst r) = Some e
                   /\ Error e = "minimum 2 segment times needed"%string
                   /\ Unwrap e = None)
     /\ snd r = [].
Proof.
  split; [vm_compute; lia | ].
  apply (too_few_times_is_refused inputs.env_ok inputs.ffmpeg
           more_inputs.cfg_one_time).
  vm_compute; lia.
Defined.

Lemma pipe_failure_starts_nothing_at_0246 :
  let r := run (TranscodeSegments more_inputs.env_no_stderr inputs.ffmpeg
                                  inputs.cfg_0246) in
  fst r = (None, Some (Errno 24))
  /\ filter is_make_chan (snd r) = []
  /\ filter is_go (snd r) = []
  /\ filter is_start (snd r) = []
  /\ List.length (filter is_command (snd r)) = 1%nat
  /\ probed (snd r) = [ffprobe_of inputs.ffmpeg].
Proof.
  apply (pipe_failure_starts_nothing more_inputs.env_no_stderr inputs.ffmpeg
           inputs.cfg_0246 (Errno 24)).
  - vm_compute; lia.
  - right. split; reflexivity.
Defined.

Lemma readers_start_before_the_process_at_0246 :
  exists pre args,
    snd (run (TranscodeSegments inputs.env_ok inputs.ffmpeg inputs.cfg_0246))
    = pre ++ EvCommand inputs.ffmpeg args
          :: EvLog (start_line inputs.ffmpeg args) :: launch
    /\ forallb (fun e => is_log e || is_probe e) pre = true
    /\ built_args (snd (run (TranscodeSegments inputs.env_ok inputs.ffmpeg
                                               inputs.cfg_0246))) = Some args.
Proof.
  apply (readers_start_before_the_process inputs.env_ok inputs.ffmpeg
           inputs.cfg_0246).
  - vm_compute; lia.
  - reflexivity.
  - reflexivity.
Defined.

Lemma input_end_and_offset_at_468 :
  exists args,
    built_args (snd (run (TranscodeSegments inputs.env_ok inputs.ffmpeg
                                            inputs.cfg_468))) = Some args
    /\ option_values "-i" (items args) = [InputFilePath inputs.cfg_468]
    /\ option_values "-to" (items args)
       = [Sprintf_f6 (last (SegmentTimes inputs.cfg_468) f64_zero)]
    /\ option_values "-segment_start_number" (items args)
       = [itoa (SegmentOffset inputs.cfg_468)]
    /\ option_values "-segment_list" (items args) = ["pipe:1"%string]
    /\ option_values "-f" (items args) = ["segment"%string].
Proof.
  apply (input_end_and_offset inputs.env_ok inputs.ffmpeg inputs.cfg_468).
  vm_compute; lia.
Defined.

Lemma profiles_decide_the_codec_options_at_audio :
  exists args,
    built_args (snd (run (TranscodeSegments inputs.env_ok inputs.ffmpeg
                                            more_inputs.cfg_audio))) = Some args
    /\ has_option "-vf" (items args) = false
    /\ option_values "-c:a" (items args) = ["aac"%string]
    /\ option_values "-b:a" (items args) = ["128k"%string].
Proof.
  destruct (profiles_decide_the_codec_options inputs.env_ok inputs.ffmpeg
              more_inputs.cfg_audio)
    as [args [Hb [Hvf [_ [_ [_ [Hca [Hba _]]]]]]]]; [vm_compute; lia | ].
  exists args. repeat split; assumption.
Defined.

Lemma without_video_profile_no_probe_is_consulted_at_audio :
  run (TranscodeSegments inputs.env_no_probe inputs.ffmpeg more_inputs.cfg_audio)
  = run (TranscodeSegments inputs.env_ok inputs.ffmpeg more_inputs.cfg_audio).
Proof.
  apply (without_video_profile_no_probe_is_consulted inputs.env_ok
           inputs.env_no_probe inputs.ffmpeg more_inputs.cfg_audio);
    reflexivity.
Defined.

Lemma keyframe_list_splits_back_at_0246 :
  exists args v,
    built_args (snd (run (TranscodeSegments inputs.env_ok inputs.ffmpeg
                                            inputs.cfg_0246))) = Some args
    /\ option_values "-force_key_frames" (items args) = [v]
    /\ option_values "-segment_times" (items args) = [v]
    /\ fields ","%char v = map Sprintf_f6 (tl (SegmentTimes inputs.cfg_0246))
    /\ List.length (fields ","%char v)
       = (List.length (SegmentTimes inputs.cfg_0246) - 1)%nat.
Proof.
  apply (keyframe_list_splits_back inputs.env_ok inputs.ffmpeg inputs.cfg_0246).
  vm_compute; lia.
Defined.

Lemma output_pattern_is_last_at_0246 :
  exists args,
    built_args (snd (run (TranscodeSegments inputs.env_ok inputs.ffmpeg
                                            inputs.cfg_0246))) = Some args
    /\ last args ""%string
       = path_Join (OutputDirPath inputs.cfg_0246)
                   (SegmentPrefix inputs.cfg_0246 ++ "-%05d.ts")
    /\ ends_with "-%05d.ts" (last args ""%string) = true
    /\ last (items args) (Alone "") = Alone (last args ""%string).
Proof.
  apply (output_pattern_is_last inputs.env_ok inputs.ffmpeg inputs.cfg_0246).
  vm_compute; lia.
Defined.

Lemma detectVideoFormat_result_at_422 :
  fst (run (detectVideoFormat inputs.env_ok "ffprobe" "in.mkv"))
  = ("yuv422p10le"%string, None).
Proof.
  apply (proj1 (detectVideoFormat_result inputs.env_ok "ffprobe" "in.mkv")
           {| PixelFormat := "yuv422p10le" |} []);
    reflexivity.
Defined.

End hlsvod_more.

(* ================================================================== *)
(** * Further properties of the tasks *)
(* ================================================================== *)

Module tasks_more.
Import Go tasks tasks_readings tasks_facts.

(** ** Nothing is invented, nothing is reordered *)


Lemma step_ahead (out err : list string) (a : Actor) (s s' : State) :
  ahead out err s -> step a s = Some s' -> ahead out err s'.
Proof.
  intros [Hscript [d Hout] [d' Herr]] Hstep.
  unfold stdout_ahead in Hout. unfold stderr_ahead in Herr.
  destruct a; cbn [step] in Hstep;
    unfold encoder_step, encoder_exit_step, encoder_finish_step, stdout_step,
           stderr_step, waiter_step, caller_step, scan_false, scan_failed,
           stderr_failed, with_so, with_se in Hstep;
    step_cases Hstep; constructor; unfold stdout_ahead, stderr_ahead;
    cbn [script exited pipe_out pipe_err pipes_closed so se wt wg buf closed
         eof taken logged received caller_done];
    try assumption; try congruence; try reflexivity;
    try (eexists; eassumption).
  - (* the encoder writes a line on its standard output *)
    exists d. rewrite Hout. cbn [stdout_lines].
    now rewrite <- !app_assoc.
  - (* the encoder writes a line on its standard error *)
    exists d'. rewrite Herr. cbn [stderr_lines].
    now rewrite <- !app_assoc.
  - (* the encoder ends: what it had still to write is never written *)
    exists (stdout_lines (script s) ++ d). rewrite Hout.
    cbn [stdout_lines]. now rewrite app_nil_r, <- !app_assoc.
  - exists (stderr_lines (script s) ++ d'). rewrite Herr.
    cbn [stderr_lines]. now rewrite app_nil_r, <- !app_assoc.
  - (* the encoder ends with status 0: likewise *)
    exists (stdout_lines (script s) ++ d). rewrite Hout.
    cbn [stdout_lines]. now rewrite app_nil_r, <- !app_assoc.
  - exists (stderr_lines (script s) ++ d'). rewrite Herr.
    cbn [stderr_lines]. now rewrite app_nil_r, <- !app_assoc.
  - (* the stdout reader takes a line *)
    exists d. rewrite Hout. now rewrite <- !app_assoc.
  - (* the stderr reader takes a line *)
    exists d'. rewrite Herr. now rewrite <- !app_assoc.
  - (* cmd.Wait closes the pipes: what is unread is lost *)
    exists (pipe_out s ++ d). rewrite Hout, (Hscript eq_refl).
    cbn [stdout_lines app]. now rewrite !app_nil_r, <- !app_assoc.
  - exists (pipe_err s ++ d'). rewrite Herr, (Hscript eq_refl).
    cbn [stderr_lines app]. now rewrite !app_nil_r, <- !app_assoc.
Qed.

Lemma exec_ahead (out err : list string) (sched : list Actor) :
  forall s s', ahead out err s -> exec sched s = Some s' -> ahead out err s'.
Proof.
  induction sched as [| a sched IH]; intros s s' Hinv Hexec; cbn [exec] in Hexec.
  - now injection Hexec as <-.
  - destruct (step a s) as [s1 | ] eqn:Hstep; [ | discriminate].
    eapply IH; [ | exact Hexec]. eapply step_ahead; eassumption.
Qed.


Lemma channel_closed_once_after_join_core (s : State) :
  inv s -> caller_done s = true -> closed s = 1%nat /\ so s = SoDone.
Proof.
  intros Hinv Hdone. destruct (inv_caller s Hinv Hdone) as [Hso _].
  rewrite (inv_closed s Hinv), Hso. split; reflexivity.
Qed.

Lemma unstarted_init (output : list Output) : unstarted (init false output).
Proof. constructor; reflexivity. Qed.

Lemma step_unstarted (a : Actor) (s s' : State) :
  unstarted s -> step a s = Some s' -> unstarted s'.
Proof.
  intros [Hex Hok Hn] Hstep.
  destruct a; cbn [step] in Hstep;
    unfold encoder_step, encoder_exit_step, encoder_finish_step, stdout_step,
           stderr_step, waiter_step, caller_step, scan_false, scan_failed,
           stderr_failed, with_so, with_se in Hstep;
    rewrite ?Hex in Hstep;
    step_cases Hstep; constructor;
    cbn [exited exit_ok notes wt] in *;
    try assumption; try reflexivity;
    unfold waiter_notes in *; rewrite ?filter_app;
    repeat match goal with
           | H : wt _ = _ |- _ => rewrite H in *
           end;
    cbn [wt_past_wait filter is_wait_note wait_note] in *;
    rewrite ?Hok, ?Hn, ?app_nil_r; try reflexivity; try assumption.
Qed.

Lemma exec_unstarted (sched : list Actor) :
  forall s s', unstarted s -> exec sched s = Some s' -> unstarted s'.
Proof.
  induction sched as [| a sched IH]; intros s s' Hun Hexec; cbn [exec] in Hexec.
  - now injection Hexec as <-.
  - destruct (step a s) as [s1 | ] eqn:Hstep; [ | discriminate].
    eapply IH; [ | exact Hexec]. eapply step_unstarted; eassumption.
Qed.

(** When the process could not be started, under every schedule no line
    is ever read from it, buffered, received by the caller or handed to
    the logger, and a caller that has seen the channel closed has seen it
    closed once.  The exit waiter does log: once it is past [cmd.Wait] it
    has logged the error of that call, once, and it never logs the success
    line. *)
Theorem unstarted_process_delivers_nothing
  (output : list Output) (sched : list Actor) (s : State) :
  exec sched (init false output) = Some s ->
  taken s = [] /\ buf s = [] /\ received s = [] /\ logged s = []
  /\ (caller_done s = true -> closed s = 1%nat)
  /\ waiter_notes (notes s) = (if wt_past_wait (wt s) then [WaitError] else [])
  /\ ~ In WaitSuccess (notes s).
Proof.
  intros Hexec.
  pose proof (exec_ahead [] [] sched (init false output) s) as Hah.
  assert (H0 : ahead [] [] (init false output)).
  { constructor; unfold stdout_ahead, stderr_ahead; cbn; try reflexivity;
      exists []; reflexivity. }
  destruct (Hah H0 Hexec) as [_ [d Hout] [d' Herr]].
  pose proof (exec_inv sched _ _ (inv_init false output) Hexec) as Hinv.
  pose proof (exec_unstarted sched _ _ (unstarted_init output) Hexec)
    as [_ _ Hnotes].
  unfold stdout_ahead in Hout. unfold stderr_ahead in Herr.
  symmetry in Hout, Herr.
  apply app_eq_nil in Hout. destruct Hout as [Hout _].
  apply app_eq_nil in Hout. destruct Hout as [Htaken _].
  apply app_eq_nil in Herr. destruct Herr as [Herr _].
  apply app_eq_nil in Herr. destruct Herr as [Hlogged _].
  pose proof (inv_taken s Hinv) as Htk. rewrite Htaken in Htk.
  symmetry in Htk. apply app_eq_nil in Htk. destruct Htk as [Hrec Htk].
  apply app_eq_nil in Htk. destruct Htk as [Hbuf _].
  repeat split; try assumption.
  - intros Hdone.
    now destruct (channel_closed_once_after_join_core s Hinv Hdone).
  - intros Hin.
    assert (Hin' : In WaitSuccess (waiter_notes (notes s)))
      by (apply filter_In; split; [exact Hin | reflexivity]).
    rewrite Hnotes in Hin'.
    destruct (wt_past_wait (wt s)); cbn [In] in Hin';
      [destruct Hin' as [Hin' | []]; discriminate | contradiction].
Qed.

(** ** The WaitGroup and the channel *)

Lemma step_buf (a : Actor) (s s' : State) :
  step a s = Some s' ->
  (List.length (buf s) <= chan_capacity)%nat ->
  (List.length (buf s') <= chan_capacity)%nat.
Proof.
  intros Hstep Hb.
  destruct a; cbn [step] in Hstep;
    unfold encoder_step, encoder_exit_step, encoder_finish_step, stdout_step,
           stderr_step, waiter_step, caller_step, scan_false, scan_failed,
           stderr_failed, with_so, with_se in Hstep;
    step_cases Hstep; cbn [buf]; try assumption;
    (* a send, for which there was room, or a receive *)
    rewrite ?length_app; cbn [List.length] in *;
    repeat match goal with
           | H : (_ <? _)%nat = true |- _ => apply Nat.ltb_lt in H
           end;
    lia.
Qed.

Lemma exec_buf (sched : list Actor) :
  forall s s', exec sched s = Some s' ->
               (List.length (buf s) <= chan_capacity)%nat ->
               (List.length (buf s') <= chan_capacity)%nat.
Proof.
  induction sched as [| a sched IH]; intros s s' Hexec Hb; cbn [exec] in Hexec.
  - now injection Hexec as <-.
  - destruct (step a s) as [s1 | ] eqn:Hstep; [ | discriminate].
    eapply IH; [exact Hexec | ]. eapply step_buf; eassumption.
Qed.

(** Under every schedule the WaitGroup and the channel are used as Go
    requires: the counter is never negative (no wg.Done without its
    wg.Add) and never above two; the buffer never holds more than the
    capacity the channel was made with; the stdout reader is never about
    to send on, or to close, a channel that is already closed. *)
Theorem waitgroup_and_channel_are_never_misused
  (started : bool) (output : list Output) (sched : list Actor) (s : State) :
  exec sched (init started output) = Some s ->
  0 <= wg s <= 2
  /\ (List.length (buf s) <= hlsvod.capacity hlsvod.segments)%nat
  /\ (forall l, so s = SoSend l -> closed s = 0%nat)
  /\ (so s = SoClose -> closed s = 0%nat)
  /\ (so s = SoDone -> se s = SeDone /\ wt s = WtDone).
Proof.
  intros Hexec.
  pose proof (exec_inv sched _ _ (inv_init started output) Hexec)
    as [Hwg Hcl Heof Hwait Htk Hpi Hex Hca].
  pose proof (exec_buf sched _ _ Hexec) as Hbuf.
  split; [ | split; [ | split; [ | split ] ] ].
  - rewrite Hwg. destruct (se s), (wt s); cbn [se_left wt_left]; lia.
  - apply Hbuf. cbn. lia.
  - intros l Hso. now rewrite Hcl, Hso.
  - intros Hso. now rewrite Hcl, Hso.
  - intros Hso. rewrite Hso in Hwait. specialize (Hwait eq_refl).
    rewrite Hwait in Hwg.
    destruct (se s), (wt s); cbn [se_left wt_left] in Hwg;
      try lia; split; reflexivity.
Qed.

(** The channel holds the stdout reader back: under every schedule the
    reader has read at most two lines more than the caller has received,
    the one in the buffer and the one it is waiting to send. *)
Theorem reader_is_at_most_two_lines_ahead
  (started : bool) (output : list Output) (sched : list Actor) (s : State) :
  exec sched (init started output) = Some s ->
  (List.length (taken s) <= List.length (received s) + 2)%nat.
Proof.
  intros Hexec.
  pose proof (exec_inv sched _ _ (inv_init started output) Hexec) as Hinv.
  pose proof (exec_buf sched _ _ Hexec) as Hbuf.
  rewrite (inv_taken s Hinv), !length_app.
  assert (Hb : (List.length (buf s) <= 1)%nat) by (apply Hbuf; cbn; lia).
  destruct (so s); cbn [pending List.length]; lia.
Qed.

(** ** The theorems at a concrete schedule *)


Lemma unstarted_process_delivers_nothing_at_two_segments :
  exists s,
    exec [Stdout; Waiter; Stderr; Stderr; Waiter; Stdout; Stdout; Caller]
         (init false inputs.two_segments) = Some s
    /\ wt s = WtDone
    /\ notes s = [WaitError; StderrReadError]
    /\ taken s = [] /\ buf s = [] /\ received s = [] /\ logged s = []
    /\ (caller_done s = true -> closed s = 1%nat)
    /\ waiter_notes (notes s) = (if wt_past_wait (wt s) then [WaitError] else [])
    /\ ~ In WaitSuccess (notes s).
Proof.
  eexists. split; [vm_compute; reflexivity | ].
  split; [reflexivity | split; [reflexivity | ] ].
  apply (unstarted_process_delivers_nothing inputs.two_segments
           [Stdout; Waiter; Stderr; Stderr; Waiter; Stdout; Stdout; Caller]).
  vm_compute; reflexivity.
Defined.

Lemma waitgroup_and_channel_are_never_misused_at_two_segments :
  exists s,
    exec inputs.one_schedule (init true inputs.two_segments) = Some s
    /\ 0 <= wg s <= 2
    /\ (List.length (buf s) <= hlsvod.capacity hlsvod.segments)%nat
    /\ (forall l, so s = SoSend l -> closed s = 0%nat)
    /\ (so s = SoClose -> closed s = 0%nat)
    /\ (so s = SoDone -> se s = SeDone /\ wt s = WtDone).
Proof.
  eexists. split; [vm_compute; reflexivity | ].
  apply (waitgroup_and_channel_are_never_misused true inputs.two_segments
           inputs.one_schedule).
  vm_compute; reflexivity.
Defined.

Lemma reader_is_at_most_two_lines_ahead_at_two_segments :
  exists s,
    exec [Encoder; Encoder; Encoder; Stdout; Stdout; Stdout]
         (init true inputs.two_segments) = Some s
    /\ (List.length (taken s) <= List.length (received s) + 2)%nat.
Proof.
  eexists. split; [vm_compute; reflexivity | ].
  apply (reader_is_at_most_two_lines_ahead true inputs.two_segments
           [Encoder; Encoder; Encoder; Stdout; Stdout; Stdout]).
  vm_compute; reflexivity.
Defined.

End tasks_more.

(* ================================================================== *)
(** * Further properties of cmdgroup *)
(* ================================================================== *)

Module cmdgroup_more.
Import Go cmdgroup cmdgroup_facts hlsvod_facts.

(** ** The Windows variant *)

Lemma utoa_injective (a b : Z) :
  0 <= a -> 0 <= b -> utoa a = utoa b -> a = b.
Proof.
  intros Ha Hb Heq.
  rewrite <- (utoa_value a Ha), <- (utoa_value b Hb). now rewrite Heq.
Qed.

Lemma itoa_injective (a b : Z) : itoa a = itoa b -> a = b.
Proof.
  unfold itoa.
  destruct (Z.ltb_spec a 0) as [Ha | Ha]; destruct (Z.ltb_spec b 0) as [Hb | Hb];
    intros Heq.
  - injection Heq as Heq. apply utoa_injective in Heq; lia.
  - pose proof (utoa_digits b) as Hd. rewrite <- Heq in Hd. discriminate Hd.
  - pose proof (utoa_digits a) as Hd. rewrite Heq in Hd. discriminate Hd.
  - now apply utoa_injective.
Qed.

(** On the Windows variant, for a started process, Kill runs TASKKILL
    once, with /T, /PID and the process id in decimal, and returns what
    that run returns; it never passes /F.  The decimal text denotes the
    process id, and two different ids never give the same text, so the
    run names this process and no other. *)
Theorem windows_kill_names_its_process
  {W : Type} `{windows.OS W} (p : Process) (w : W) :
  let r := windows.Kill (Some {| Process_ := Some p |}) w in
  exists pid_text,
    snd r = [EvRun "TASKKILL" ["/T"%string; "/PID"%string; pid_text]]
    /\ fst r = windows.cmd_Run "TASKKILL" ["/T"%string; "/PID"%string; pid_text] w
    /\ pid_text <> "/F"%string
    /\ (0 <= Pid p -> digits_value pid_text 0 = Pid p)
    /\ (forall q : Process, itoa (Pid q) = pid_text -> Pid q = Pid p).
Proof.
  cbv zeta. exists (itoa (Pid p)).
  unfold windows.Kill, windows.platformKill. cbn [Process_].
  destruct (windows.cmd_Run "TASKKILL"
              ["/T"%string; "/PID"%string; itoa (Pid p)] w) as [e w'] eqn:Hrun.
  cbn [fst snd].
  split; [reflexivity | split; [reflexivity | split; [ | split ] ] ].
  - unfold itoa. destruct (Pid p <? 0).
    + discriminate.
    + intros Heq. pose proof (utoa_digits (Pid p)) as Hd.
      rewrite Heq in Hd. discriminate Hd.
  - intros Hpos. unfold itoa.
    replace (Pid p <? 0) with false by (symmetry; apply Z.ltb_ge; lia).
    now apply utoa_value.
  - intros q Heq. now apply itoa_injective.
Qed.

(** ** The theorems at concrete inputs *)

Lemma windows_kill_names_its_process_at_100 :
  exists pid_text,
    snd (windows.Kill inputs.cmd_100 inputs.killed_then_gone)
    = [EvRun "TASKKILL" ["/T"%string; "/PID"%string; pid_text]]
    /\ digits_value pid_text 0 = 100.
Proof.
  destruct (windows_kill_names_its_process {| Pid := 100 |}
              inputs.killed_then_gone)
    as [t [Hev [_ [_ [Hval _]]]]].
  exists t. split; [exact Hev | ].
  apply Hval. cbn [Pid]. lia.
Defined.

End cmdgroup_more.
